(** * A 16-bit RISC emulator: memory, ALU and fetch-decode-execute loop

    Shallow embedding of [src/emulator/memory.cpp], [src/emulator/cpu.cpp]
    (which also carries the ALU), the common type header and the reference
    program [programs/factorial.c], followed by the properties of the
    little-endian memory, the console port, the ALU flag rules, the
    instruction encoding, the fetch-decode-execute step and the memory
    dump.

    Conventions.  A [word_t], [addr_t] or [byte_t] is a [Z]; every place
    where C++ converts to one of these types is written out with
    [to_word] or [to_byte].  A function whose C++ parameter has such a
    type converts its argument on entry, as the call does.  The two
    fixed-size arrays (the 64 KiB backing store and the register file)
    are total functions on their index; the register file is read and
    written through bounds-checked accessors, since the decoded [rt]
    field can exceed the last register. *)

From Stdlib Require Import ZArith List Bool Lia.
From Stdlib Require String.
Import (notations) String.
Import ListNotations.
Local Open Scope Z_scope.

(** ** Common types and constants (the shared type header) *)

(** [(word_t)x] and [(addr_t)x]: reduction modulo 2^16. *)
Definition to_word (x : Z) : Z := x mod 65536.

(** [(byte_t)x]: reduction modulo 2^8. *)
Definition to_byte (x : Z) : Z := x mod 256.

(** [(int16_t)x]: the two's complement reading of the low 16 bits. *)
Definition to_int16 (x : Z) : Z := (x + 32768) mod 65536 - 32768.

(** [(uint32_t)x]. *)
Definition to_uint32 (x : Z) : Z := x mod 4294967296.

Definition MEMORY_SIZE : Z := 0x10000.
Definition PROGRAM_START : Z := 0x0000.
Definition STACK_END : Z := 0xFFFF.
Definition IO_CONSOLE_OUT : Z := 0xF000.
Definition NUM_REGISTERS : Z := 8.

Definition FLAG_ZERO : Z := 0x0001.
Definition FLAG_CARRY : Z := 0x0002.
Definition FLAG_NEGATIVE : Z := 0x0004.
Definition FLAG_OVERFLOW : Z := 0x0008.

Definition GET_OPCODE (instr : Z) : Z := Z.land (Z.shiftr instr 10) 0x3F.
Definition GET_RD (instr : Z) : Z := Z.land (Z.shiftr instr 7) 0x07.
Definition GET_RS (instr : Z) : Z := Z.land (Z.shiftr instr 4) 0x07.
Definition GET_RT (instr : Z) : Z := Z.land instr 0x0F.
Definition GET_IMM4 (instr : Z) : Z := Z.land instr 0x0F.
Definition GET_IMM7 (instr : Z) : Z := Z.land instr 0x7F.
Definition GET_IMM10 (instr : Z) : Z := Z.land instr 0x3FF.

Definition MAKE_INSTR (op rd rs rt : Z) : Z :=
  Z.lor (Z.lor (Z.lor (Z.shiftl (Z.land op 0x3F) 10)
                      (Z.shiftl (Z.land rd 0x07) 7))
               (Z.shiftl (Z.land rs 0x07) 4))
        (Z.land rt 0x0F).

Definition MAKE_INSTR_IMM7 (op rd imm : Z) : Z :=
  Z.lor (Z.lor (Z.shiftl (Z.land op 0x3F) 10)
               (Z.shiftl (Z.land rd 0x07) 7))
        (Z.land imm 0x7F).

Definition sign_extend_4bit (val : Z) : Z :=
  let val := to_word val in
  if negb (Z.land val 0x08 =? 0) then to_int16 (Z.lor val 0xFFF0)
  else to_int16 val.

Definition sign_extend_7bit (val : Z) : Z :=
  let val := to_word val in
  if negb (Z.land val 0x40 =? 0) then to_int16 (Z.lor val 0xFF80)
  else to_int16 val.

Definition sign_extend_10bit (val : Z) : Z :=
  let val := to_word val in
  if negb (Z.land val 0x200 =? 0) then to_int16 (Z.lor val 0xFC00)
  else to_int16 val.

(** A C++ condition [if (x)] on an integer: true when [x] is not zero. *)
Definition nonzero (x : Z) : bool := negb (x =? 0).

(** ** Memory (memory.cpp) *)

(** Modelled from the spec: the class declaration of [Memory] (memory.h)
    is not among the sources; following section 3 of the specification the
    backing store [data] is an array of 65 536 bytes.  [console] is the
    sequence of characters the object has sent to the host's standard
    output through the console port, oldest first. *)
Record Memory : Type := mkMemory {
  data : Z -> Z;
  console : list Z
}.

Definition clear (m : Memory) : Memory :=
  mkMemory (fun _ => 0) (console m).

(** The state a freshly constructed [Memory] is in. *)
Definition Memory_new : Memory := mkMemory (fun _ => 0) [].

Definition read_byte (m : Memory) (address : Z) : Z :=
  let address := to_word address in
  data m address.

Definition write_byte (m : Memory) (address value : Z) : Memory :=
  let address := to_word address in
  let value := to_byte value in
  if address =? IO_CONSOLE_OUT then
    mkMemory (data m) (console m ++ [value])
  else
    mkMemory (fun a => if a =? address then value else data m a) (console m).

Definition read_word (m : Memory) (address : Z) : Z :=
  let address := to_word address in
  let low := read_byte m address in
  let high := read_byte m (address + 1) in
  to_word (Z.lor (Z.shiftl high 8) low).

Definition write_word (m : Memory) (address value : Z) : Memory :=
  let address := to_word address in
  let value := to_word value in
  let m1 := write_byte m address (to_byte (Z.land value 0xFF)) in
  write_byte m1 (address + 1) (to_byte (Z.land (Z.shiftr value 8) 0xFF)).

(** Copying characters into the backing store, as [file.read] does with
    the destination [data + start_address]: the bytes go straight into
    [data], not through [write_byte]. *)
Fixpoint store_bytes (d : Z -> Z) (bytes : list Z) (at_ : Z) : Z -> Z :=
  match bytes with
  | [] => d
  | b :: rest =>
      store_bytes (fun a => if a =? at_ then to_byte b else d a) rest (at_ + 1)
  end.

(** The store after [load_program] for a file that is opened and read to
    its end, given by its contents [bytes]: the size check and the copy.
    [None] is the refusal of the size check.  This is the part of the
    function that places a program image; the whole function, with the
    file that cannot be opened or read and the lines it prints, is
    [Memory_load_program] below. *)
Definition load_program (m : Memory) (bytes : list Z) (start_address : Z)
  : option Memory :=
  let start_address := to_word start_address in
  let size := Z.of_nat (length bytes) in
  if start_address + size >? MEMORY_SIZE then None
  else Some (mkMemory (store_bytes (data m) bytes start_address) (console m)).

(** [(size_t)x], on a host whose [size_t] and [std::streamsize] are 64 bits
    wide. *)
Definition to_size_t (x : Z) : Z := x mod 18446744073709551616.

(** What the host answers on an opened [std::ifstream]: [tellg] is the
    position reported right after opening at the end, the size of the
    file; [read] is the sequence of characters that [file.read] stores
    when asked for that many.  As [istream::read] is specified, the read
    succeeds when it has stored as many characters as were asked for. *)
Record ifstream : Type := mk_ifstream {
  tellg : Z;
  read : list Z
}.

Definition read_succeeds (file : ifstream) : bool :=
  Z.of_nat (length (read file)) =? tellg file.

(** The line [load_program] prints.  The three errors go to [std::cerr].
    [loaded] is the line "Loaded <size> bytes from '<filename>' at address
    0x<start_address>", which goes to [std::cout], the stream the console
    port writes to, after all that the port has printed so far; it is
    kept as a value of its own, its text is left out, and [console] stays
    the output of the port alone. *)
Inductive LoadReport : Type :=
| could_not_open (filename : String.string)
| program_too_large
| failed_to_read
| loaded (size : Z) (filename : String.string) (start_address : Z).

(** [Memory::load_program], whole.  [fs] is the host's file system: what
    opening a name gives, [None] when [is_open] fails.  The result is the
    returned [bool], the memory afterwards and the line printed.  In
    [start_address + size > MEMORY_SIZE] the sum is a [std::streamsize]
    and is converted to [size_t] for the comparison. *)
Definition Memory_load_program (fs : String.string -> option ifstream)
    (m : Memory) (filename : String.string) (start_address : Z)
  : bool * Memory * LoadReport :=
  let start_address := to_word start_address in
  match fs filename with
  | None => (false, m, could_not_open filename)
  | Some file =>
      let size := tellg file in
      if to_size_t (start_address + size) >? MEMORY_SIZE then
        (false, m, program_too_large)
      else
        let m1 :=
          mkMemory (store_bytes (data m) (read file) start_address)
                   (console m) in
        if negb (read_succeeds file) then (false, m1, failed_to_read)
        else (true, m1, loaded size filename start_address)
  end.

Definition load_ok (r : bool * Memory * LoadReport) : bool := fst (fst r).
Definition load_memory (r : bool * Memory * LoadReport) : Memory :=
  snd (fst r).
Definition load_report (r : bool * Memory * LoadReport) : LoadReport :=
  snd r.

Definition on_standard_output (r : LoadReport) : bool :=
  match r with
  | loaded _ _ _ => true
  | _ => false
  end.

(** A file system that holds one file. *)
Definition one_file (name : String.string) (file : ifstream)
  : String.string -> option ifstream :=
  fun filename => if String.eqb filename name then Some file else None.

(** One row of a memory dump: the address it starts at, the bytes shown
    in hexadecimal and the characters shown in the text column (a
    printable byte as itself, any other as a dot).  The layout of the
    printed text (widths, separators) is left out. *)
Record DumpRow : Type := mkDumpRow {
  row_address : Z;
  row_hex : list Z;
  row_ascii : list Z
}.

(** The cells of one row: [for (int i = 0; i < 16 && (addr + i) <= end;
    i++)] visits [data[addr + i]].  The index is an [int], it does not
    wrap.  Sixteen rounds exhaust the loop, so [fuel] is 16. *)
Fixpoint row_cells (fuel : nat) (m : Memory) (addr end_ i : Z) : list Z :=
  match fuel with
  | O => []
  | S fuel' =>
      if (i <? 16) && (addr + i <=? end_)
      then data m (addr + i) :: row_cells fuel' m addr end_ (i + 1)
      else []
  end.

Definition ascii_cell (b : Z) : Z :=
  if (b >=? 32) && (b <? 127) then b else 46.

Definition dump_row (m : Memory) (addr end_ : Z) : DumpRow :=
  let cells := row_cells 16 m addr end_ 0 in
  mkDumpRow addr cells (map ascii_cell cells).

(** The loop over the rows: [for (addr_t addr = start; addr <= end;
    addr += 16)], the counter being a 16-bit address that wraps.  The
    loop need not end; [None] says that [fuel] rounds did not end it. *)
Fixpoint dump_rows (fuel : nat) (m : Memory) (addr end_ : Z)
  : option (list DumpRow) :=
  match fuel with
  | O => None
  | S fuel' =>
      if addr <=? end_ then
        match dump_rows fuel' m (to_word (addr + 16)) end_ with
        | Some rest => Some (dump_row m addr end_ :: rest)
        | None => None
        end
      else Some []
  end.

Definition dump (fuel : nat) (m : Memory) (start end_ : Z)
  : option (list DumpRow) :=
  let start := to_word start in
  let end_ := to_word end_ in
  dump_rows fuel m start end_.

(** [length] is a [size_t]; the sum is cut to an address, which gives the
    same 16 bits whatever the width of [size_t]. *)
Definition dump_range (fuel : nat) (m : Memory) (start length : Z)
  : option (list DumpRow) :=
  let start := to_word start in
  if length =? 0 then Some []
  else
    let end_ := to_word (start + length - 1) in
    let end_ := if end_ <? start then 0xFFFF else end_ in
    dump fuel m start end_.

(** ** ALU (second part of cpu.cpp) *)

Module ALU.

Definition clear_flags (flags : Z) : Z := 0.

Definition set_zero_flag (result flags : Z) : Z :=
  let result := to_word result in
  if result =? 0 then Z.lor flags FLAG_ZERO else flags.

Definition set_negative_flag (result flags : Z) : Z :=
  let result := to_word result in
  if nonzero (Z.land result 0x8000) then Z.lor flags FLAG_NEGATIVE
  else flags.

(** Every operation returns the pair (result, outgoing flag word); the
    incoming flag word is the last argument, as in the source. *)

Definition add (a b flags : Z) : Z * Z :=
  let a := to_word a in
  let b := to_word b in
  let flags := clear_flags flags in
  let result32 := to_uint32 (a + b) in
  let result := to_word result32 in
  let flags := if result32 >? 0xFFFF then Z.lor flags FLAG_CARRY else flags in
  let a_neg := nonzero (Z.land a 0x8000) in
  let b_neg := nonzero (Z.land b 0x8000) in
  let r_neg := nonzero (Z.land result 0x8000) in
  let flags :=
    if Bool.eqb a_neg b_neg && negb (Bool.eqb a_neg r_neg)
    then Z.lor flags FLAG_OVERFLOW else flags in
  let flags := set_zero_flag result flags in
  let flags := set_negative_flag result flags in
  (result, flags).

Definition sub (a b flags : Z) : Z * Z :=
  let a := to_word a in
  let b := to_word b in
  let flags := clear_flags flags in
  let result32 := a - b in
  let result := to_word result32 in
  let flags := if a <? b then Z.lor flags FLAG_CARRY else flags in
  let a_neg := nonzero (Z.land a 0x8000) in
  let b_neg := nonzero (Z.land b 0x8000) in
  let r_neg := nonzero (Z.land result 0x8000) in
  let flags :=
    if negb (Bool.eqb a_neg b_neg) && negb (Bool.eqb a_neg r_neg)
    then Z.lor flags FLAG_OVERFLOW else flags in
  let flags := set_zero_flag result flags in
  let flags := set_negative_flag result flags in
  (result, flags).

Definition mul (a b flags : Z) : Z * Z :=
  let a := to_word a in
  let b := to_word b in
  let flags := clear_flags flags in
  let result32 := to_uint32 (a * b) in
  let result := to_word (Z.land result32 0xFFFF) in
  let flags := if result32 >? 0xFFFF then Z.lor flags FLAG_CARRY else flags in
  let flags := set_zero_flag result flags in
  let flags := set_negative_flag result flags in
  (result, flags).

Definition div (a b flags : Z) : Z * Z :=
  let a := to_word a in
  let b := to_word b in
  let flags := clear_flags flags in
  if b =? 0 then
    let flags := Z.lor flags FLAG_OVERFLOW in
    (0xFFFF, flags)
  else
    let result := to_word (a / b) in
    let flags := set_zero_flag result flags in
    let flags := set_negative_flag result flags in
    (result, flags).

Definition and_op (a b flags : Z) : Z * Z :=
  let a := to_word a in
  let b := to_word b in
  let flags := clear_flags flags in
  let result := to_word (Z.land a b) in
  let flags := set_zero_flag result flags in
  let flags := set_negative_flag result flags in
  (result, flags).

Definition or_op (a b flags : Z) : Z * Z :=
  let a := to_word a in
  let b := to_word b in
  let flags := clear_flags flags in
  let result := to_word (Z.lor a b) in
  let flags := set_zero_flag result flags in
  let flags := set_negative_flag result flags in
  (result, flags).

Definition xor_op (a b flags : Z) : Z * Z :=
  let a := to_word a in
  let b := to_word b in
  let flags := clear_flags flags in
  let result := to_word (Z.lxor a b) in
  let flags := set_zero_flag result flags in
  let flags := set_negative_flag result flags in
  (result, flags).

Definition not_op (a flags : Z) : Z * Z :=
  let a := to_word a in
  let flags := clear_flags flags in
  let result := to_word (Z.lnot a) in
  let flags := set_zero_flag result flags in
  let flags := set_negative_flag result flags in
  (result, flags).

Definition shl (a shift flags : Z) : Z * Z :=
  let a := to_word a in
  let shift := to_word shift in
  let flags := clear_flags flags in
  if shift >=? 16 then
    let flags :=
      if (shift =? 16) && nonzero (Z.land a 0x0001)
      then Z.lor flags FLAG_CARRY else flags in
    let flags := set_zero_flag 0 flags in
    (0, flags)
  else
    let flags :=
      if (shift >? 0) && nonzero (Z.land a (Z.shiftl 1 (16 - shift)))
      then Z.lor flags FLAG_CARRY else flags in
    let result := to_word (Z.shiftl a shift) in
    let flags := set_zero_flag result flags in
    let flags := set_negative_flag result flags in
    (result, flags).

Definition shr (a shift flags : Z) : Z * Z :=
  let a := to_word a in
  let shift := to_word shift in
  let flags := clear_flags flags in
  if shift >=? 16 then
    let flags :=
      if (shift =? 16) && nonzero (Z.land a 0x8000)
      then Z.lor flags FLAG_CARRY else flags in
    let flags := set_zero_flag 0 flags in
    (0, flags)
  else
    let flags :=
      if (shift >? 0) && nonzero (Z.land a (Z.shiftl 1 (shift - 1)))
      then Z.lor flags FLAG_CARRY else flags in
    let result := to_word (Z.shiftr a shift) in
    let flags := set_zero_flag result flags in
    let flags := set_negative_flag result flags in
    (result, flags).

Definition compare (a b flags : Z) : Z * Z :=
  let r := sub a b flags in
  (0, snd r).

End ALU.

(** ** Opcodes *)

(** The instruction mnemonics the dispatch of [execute_instruction] names,
    in the order of its [case] labels. *)
Inductive Opcode : Type :=
  | OP_NOP | OP_MOVI | OP_LOAD_IND | OP_LOAD_DIR | OP_STORE_IND | OP_STORE_DIR
  | OP_ADD | OP_ADDI | OP_SUB | OP_SUBI | OP_MUL | OP_DIV | OP_INC | OP_DEC
  | OP_AND | OP_ANDI | OP_OR | OP_ORI | OP_XOR | OP_NOT
  | OP_SHL | OP_SHLI | OP_SHR | OP_SHRI
  | OP_CMP | OP_CMPI
  | OP_JMP | OP_JZ | OP_JNZ | OP_JC | OP_JNC | OP_JN | OP_CALL | OP_RET
  | OP_PUSH | OP_POP
  | OP_HALT.

Definition all_opcodes : list Opcode :=
  [ OP_NOP; OP_MOVI; OP_LOAD_IND; OP_LOAD_DIR; OP_STORE_IND; OP_STORE_DIR;
    OP_ADD; OP_ADDI; OP_SUB; OP_SUBI; OP_MUL; OP_DIV; OP_INC; OP_DEC;
    OP_AND; OP_ANDI; OP_OR; OP_ORI; OP_XOR; OP_NOT;
    OP_SHL; OP_SHLI; OP_SHR; OP_SHRI;
    OP_CMP; OP_CMPI;
    OP_JMP; OP_JZ; OP_JNZ; OP_JC; OP_JNC; OP_JN; OP_CALL; OP_RET;
    OP_PUSH; OP_POP;
    OP_HALT ].

(** The numbers of the opcodes are assigned in a header that is not among
    the sources (the specification calls them an implementation detail of
    the binary format), so the numbering is a parameter [code] of
    everything below.  [decode_opcode] is the [switch]: it finds the label
    whose number is the 6-bit opcode field, or none ([default]). *)
Definition decode_opcode (code : Opcode -> Z) (opcode : Z) : option Opcode :=
  find (fun o => code o =? opcode) all_opcodes.

(** What a C++ enumeration used as [case] labels and packed by
    [MAKE_INSTR] satisfies: the labels are pairwise distinct and fit the
    6-bit field. *)
Definition opcode_table_ok (code : Opcode -> Z) : Prop :=
  (forall o1 o2, code o1 = code o2 -> o1 = o2) /\
  (forall o, 0 <= code o < 64).

(** ** CPU (first part of cpu.cpp) *)

(** Modelled from the spec: the class declaration of [CPU] (cpu.h) is not
    among the sources.  Following section 3 of the specification the
    register file holds eight words, [pc] and [sp] are addresses (16 bits,
    wrapping), [flags] is a word; the instruction counter is taken as an
    unbounded integer. *)
Record CPU : Type := mkCPU {
  registers : Z -> Z;
  pc : Z;
  sp : Z;
  flags : Z;
  halted : bool;
  debug_mode : bool;
  instruction_count : Z
}.

Definition with_registers (c : CPU) (r : Z -> Z) : CPU :=
  mkCPU r (pc c) (sp c) (flags c) (halted c) (debug_mode c)
        (instruction_count c).
Definition with_pc (c : CPU) (v : Z) : CPU :=
  mkCPU (registers c) v (sp c) (flags c) (halted c) (debug_mode c)
        (instruction_count c).
Definition with_sp (c : CPU) (v : Z) : CPU :=
  mkCPU (registers c) (pc c) v (flags c) (halted c) (debug_mode c)
        (instruction_count c).
Definition with_flags (c : CPU) (v : Z) : CPU :=
  mkCPU (registers c) (pc c) (sp c) v (halted c) (debug_mode c)
        (instruction_count c).
Definition with_halted (c : CPU) (v : bool) : CPU :=
  mkCPU (registers c) (pc c) (sp c) (flags c) v (debug_mode c)
        (instruction_count c).
Definition with_instruction_count (c : CPU) (v : Z) : CPU :=
  mkCPU (registers c) (pc c) (sp c) (flags c) (halted c) (debug_mode c) v.

(** [registers[i]] as an rvalue and as an assignment target.  The array has
    [NUM_REGISTERS] cells; an index outside it has no defined meaning in
    C++ and makes the access fail here. *)
Definition reg_read (regs : Z -> Z) (i : Z) : option Z :=
  if (0 <=? i) && (i <? NUM_REGISTERS) then Some (regs i) else None.

Definition reg_write (regs : Z -> Z) (i v : Z) : option (Z -> Z) :=
  if (0 <=? i) && (i <? NUM_REGISTERS)
  then Some (fun j => if j =? i then to_word v else regs j)
  else None.

(** Sequencing of steps that can fail. *)
Definition bind {A B : Type} (x : option A) (f : A -> option B) : option B :=
  match x with
  | Some a => f a
  | None => None
  end.

Notation "x <- e ;; k" := (bind e (fun x => k))
  (at level 61, e at next level, right associativity).

Definition reset (c : CPU) : CPU :=
  mkCPU (fun _ => 0) PROGRAM_START STACK_END 0 false false 0.

Definition get_register (c : CPU) (reg : Z) : option Z :=
  if (reg >=? 0) && (reg <? NUM_REGISTERS) then reg_read (registers c) reg
  else Some 0.

Definition push (c : CPU) (m : Memory) (value : Z) : CPU * Memory :=
  let c := with_sp c (to_word (sp c - 2)) in
  (c, write_word m (sp c) value).

Definition pop (c : CPU) (m : Memory) : Z * CPU :=
  let value := read_word m (sp c) in
  (value, with_sp c (to_word (sp c + 2))).

Definition halt (c : CPU) : CPU := with_halted c true.

(** [registers[rd] = v], the memory untouched. *)
Definition set_reg (c : CPU) (m : Memory) (rd v : Z) : option (CPU * Memory) :=
  regs <- reg_write (registers c) rd v ;;
  Some (with_registers c regs, m).

(** [registers[rd] = ALU::op(..., flags)] for an ALU outcome [rf]. *)
Definition commit (c : CPU) (m : Memory) (rd : Z) (rf : Z * Z)
  : option (CPU * Memory) :=
  set_reg (with_flags c (snd rf)) m rd (fst rf).

(** Decode and execute.  The text that the emulator prints for the user
    (the trace of debug mode, the message for an unknown opcode) changes
    neither the CPU nor the memory and is not modelled. *)
Definition execute_instruction (code : Opcode -> Z)
    (c : CPU) (m : Memory) (instruction : Z) : option (CPU * Memory) :=
  let instruction := to_word instruction in
  let opcode := to_byte (GET_OPCODE instruction) in
  let rd := to_byte (GET_RD instruction) in
  let rs := to_byte (GET_RS instruction) in
  let rt := to_byte (GET_RT instruction) in
  let imm4 := to_byte (GET_IMM4 instruction) in
  let imm7 := to_byte (GET_IMM7 instruction) in
  match decode_opcode code opcode with
  | Some OP_NOP =>
      if negb (rd =? rs) then
        v <- reg_read (registers c) rs ;; set_reg c m rd v
      else Some (c, m)
  | Some OP_MOVI => set_reg c m rd (sign_extend_7bit imm7)
  | Some OP_LOAD_IND =>
      a <- reg_read (registers c) rs ;; set_reg c m rd (read_word m a)
  | Some OP_LOAD_DIR =>
      let address := read_word m (pc c) in
      let c := with_pc c (to_word (pc c + 2)) in
      set_reg c m rd (read_word m address)
  | Some OP_STORE_IND =>
      a <- reg_read (registers c) rd ;;
      v <- reg_read (registers c) rs ;;
      Some (c, write_word m a v)
  | Some OP_STORE_DIR =>
      let address := read_word m (pc c) in
      let c := with_pc c (to_word (pc c + 2)) in
      v <- reg_read (registers c) rs ;;
      Some (c, write_word m address v)
  | Some OP_ADD =>
      a <- reg_read (registers c) rs ;;
      b <- reg_read (registers c) rt ;;
      commit c m rd (ALU.add a b (flags c))
  | Some OP_ADDI =>
      a <- reg_read (registers c) rs ;;
      commit c m rd (ALU.add a (sign_extend_4bit imm4) (flags c))
  | Some OP_SUB =>
      a <- reg_read (registers c) rs ;;
      b <- reg_read (registers c) rt ;;
      commit c m rd (ALU.sub a b (flags c))
  | Some OP_SUBI =>
      a <- reg_read (registers c) rs ;;
      commit c m rd (ALU.sub a (sign_extend_4bit imm4) (flags c))
  | Some OP_MUL =>
      a <- reg_read (registers c) rs ;;
      b <- reg_read (registers c) rt ;;
      commit c m rd (ALU.mul a b (flags c))
  | Some OP_DIV =>
      a <- reg_read (registers c) rs ;;
      b <- reg_read (registers c) rt ;;
      commit c m rd (ALU.div a b (flags c))
  | Some OP_INC =>
      a <- reg_read (registers c) rd ;;
      commit c m rd (ALU.add a 1 (flags c))
  | Some OP_DEC =>
      a <- reg_read (registers c) rd ;;
      commit c m rd (ALU.sub a 1 (flags c))
  | Some OP_AND =>
      a <- reg_read (registers c) rs ;;
      b <- reg_read (registers c) rt ;;
      commit c m rd (ALU.and_op a b (flags c))
  | Some OP_ANDI =>
      a <- reg_read (registers c) rs ;;
      commit c m rd (ALU.and_op a imm4 (flags c))
  | Some OP_OR =>
      a <- reg_read (registers c) rs ;;
      b <- reg_read (registers c) rt ;;
      commit c m rd (ALU.or_op a b (flags c))
  | Some OP_ORI =>
      a <- reg_read (registers c) rs ;;
      commit c m rd (ALU.or_op a imm4 (flags c))
  | Some OP_XOR =>
      a <- reg_read (registers c) rs ;;
      b <- reg_read (registers c) rt ;;
      commit c m rd (ALU.xor_op a b (flags c))
  | Some OP_NOT =>
      a <- reg_read (registers c) rs ;;
      commit c m rd (ALU.not_op a (flags c))
  | Some OP_SHL =>
      a <- reg_read (registers c) rs ;;
      b <- reg_read (registers c) rt ;;
      commit c m rd (ALU.shl a b (flags c))
  | Some OP_SHLI =>
      a <- reg_read (registers c) rs ;;
      commit c m rd (ALU.shl a imm4 (flags c))
  | Some OP_SHR =>
      a <- reg_read (registers c) rs ;;
      b <- reg_read (registers c) rt ;;
      commit c m rd (ALU.shr a b (flags c))
  | Some OP_SHRI =>
      a <- reg_read (registers c) rs ;;
      commit c m rd (ALU.shr a imm4 (flags c))
  | Some OP_CMP =>
      a <- reg_read (registers c) rs ;;
      b <- reg_read (registers c) rt ;;
      Some (with_flags c (snd (ALU.compare a b (flags c))), m)
  | Some OP_CMPI =>
      a <- reg_read (registers c) rs ;;
      Some (with_flags c
              (snd (ALU.compare a (sign_extend_4bit imm4) (flags c))), m)
  | Some OP_JMP =>
      let address := read_word m (pc c) in
      Some (with_pc c address, m)
  | Some OP_JZ =>
      let address := read_word m (pc c) in
      let c := with_pc c (to_word (pc c + 2)) in
      if nonzero (Z.land (flags c) FLAG_ZERO) then Some (with_pc c address, m)
      else Some (c, m)
  | Some OP_JNZ =>
      let address := read_word m (pc c) in
      let c := with_pc c (to_word (pc c + 2)) in
      if negb (nonzero (Z.land (flags c) FLAG_ZERO)) then Some (with_pc c address, m)
      else Some (c, m)
  | Some OP_JC =>
      let address := read_word m (pc c) in
      let c := with_pc c (to_word (pc c + 2)) in
      if nonzero (Z.land (flags c) FLAG_CARRY) then Some (with_pc c address, m)
      else Some (c, m)
  | Some OP_JNC =>
      let address := read_word m (pc c) in
      let c := with_pc c (to_word (pc c + 2)) in
      if negb (nonzero (Z.land (flags c) FLAG_CARRY)) then Some (with_pc c address, m)
      else Some (c, m)
  | Some OP_JN =>
      let address := read_word m (pc c) in
      let c := with_pc c (to_word (pc c + 2)) in
      if nonzero (Z.land (flags c) FLAG_NEGATIVE) then Some (with_pc c address, m)
      else Some (c, m)
  | Some OP_CALL =>
      let address := read_word m (pc c) in
      let c := with_pc c (to_word (pc c + 2)) in
      let (c, m) := push c m (pc c) in
      Some (with_pc c address, m)
  | Some OP_RET =>
      let (value, c) := pop c m in
      Some (with_pc c value, m)
  | Some OP_PUSH =>
      v <- reg_read (registers c) rs ;;
      Some (push c m v)
  | Some OP_POP =>
      let (value, c) := pop c m in
      set_reg c m rd value
  | Some OP_HALT => Some (halt c, m)
  | None => Some (halt c, m)
  end.

Definition fetch_decode_execute (code : Opcode -> Z) (c : CPU) (m : Memory)
  : option (CPU * Memory) :=
  let instruction := read_word m (pc c) in
  let c := with_pc c (to_word (pc c + 2)) in
  execute_instruction code c m instruction.

Definition step (code : Opcode -> Z) (c : CPU) (m : Memory)
  : option (CPU * Memory) :=
  if halted c then Some (c, m)
  else
    cm <- fetch_decode_execute code c m ;;
    Some (with_instruction_count (fst cm) (instruction_count (fst cm) + 1),
          snd cm).

(** [run] loops until the CPU halts, which a program need not do; the
    loop is cut after [fuel] iterations. *)
Fixpoint run (code : Opcode -> Z) (fuel : nat) (c : CPU) (m : Memory)
  : option (CPU * Memory) :=
  match fuel with
  | O => Some (c, m)
  | S fuel' =>
      if halted c then Some (c, m)
      else cm <- step code c m ;; run code fuel' (fst cm) (snd cm)
  end.

(** * Vocabulary of the statements

    Definitions that the properties are stated with: they name what the
    specification talks about (an ALU operation, a flag, the opcode stored
    at an address, the branch conditions) and fix the concrete machine
    states on which the properties are run. *)

(** The operations of the ALU, to quantify over all of them. *)
Inductive alu_operation : Type :=
  | ALU_add | ALU_sub | ALU_mul | ALU_div
  | ALU_and_op | ALU_or_op | ALU_xor_op | ALU_not_op
  | ALU_shl | ALU_shr | ALU_compare.

Definition alu_apply (op : alu_operation) (a b flags : Z) : Z * Z :=
  match op with
  | ALU_add => ALU.add a b flags
  | ALU_sub => ALU.sub a b flags
  | ALU_mul => ALU.mul a b flags
  | ALU_div => ALU.div a b flags
  | ALU_and_op => ALU.and_op a b flags
  | ALU_or_op => ALU.or_op a b flags
  | ALU_xor_op => ALU.xor_op a b flags
  | ALU_not_op => ALU.not_op a flags
  | ALU_shl => ALU.shl a b flags
  | ALU_shr => ALU.shr a b flags
  | ALU_compare => ALU.compare a b flags
  end.

(** A flag of a flag word is set when the word has the flag's bit. *)
Definition flag_set (flags flag : Z) : bool := nonzero (Z.land flags flag).

(** The opcode field of the instruction word stored at an address. *)
Definition opcode_at (m : Memory) (address : Z) : Z :=
  GET_OPCODE (read_word m address).

(** A numbering that satisfies [opcode_table_ok]: the labels in the order
    of the dispatch, from 0 (NOP is opcode 0x00 in the catalogue of the
    specification).  Numbers 37 to 63 stay unassigned. *)
Definition sequential_codes (o : Opcode) : Z :=
  match o with
  | OP_NOP => 0 | OP_MOVI => 1 | OP_LOAD_IND => 2 | OP_LOAD_DIR => 3
  | OP_STORE_IND => 4 | OP_STORE_DIR => 5
  | OP_ADD => 6 | OP_ADDI => 7 | OP_SUB => 8 | OP_SUBI => 9 | OP_MUL => 10
  | OP_DIV => 11 | OP_INC => 12 | OP_DEC => 13
  | OP_AND => 14 | OP_ANDI => 15 | OP_OR => 16 | OP_ORI => 17 | OP_XOR => 18
  | OP_NOT => 19
  | OP_SHL => 20 | OP_SHLI => 21 | OP_SHR => 22 | OP_SHRI => 23
  | OP_CMP => 24 | OP_CMPI => 25
  | OP_JMP => 26 | OP_JZ => 27 | OP_JNZ => 28 | OP_JC => 29 | OP_JNC => 30
  | OP_JN => 31 | OP_CALL => 32 | OP_RET => 33
  | OP_PUSH => 34 | OP_POP => 35
  | OP_HALT => 36
  end.

(** A memory that holds the given words at the given addresses and zero
    elsewhere, for the concrete machine states below. *)
Fixpoint memory_with (words : list (Z * Z)) : Memory :=
  match words with
  | [] => Memory_new
  | (a, w) :: rest => write_word (memory_with rest) a w
  end.

(** The CPU after construction. *)
Definition CPU_new : CPU := reset (mkCPU (fun _ => 0) 0 0 0 false false 0).

(** The five conditional jumps. *)
Definition is_conditional_jump (o : Opcode) : bool :=
  match o with
  | OP_JZ | OP_JNZ | OP_JC | OP_JNC | OP_JN => true
  | _ => false
  end.

(** The branch condition of each conditional jump, read off the flag word
    bit by bit: Z is bit 0, C is bit 1, N is bit 2. *)
Definition jump_predicate (o : Opcode) (flags : Z) : bool :=
  match o with
  | OP_JZ => Z.testbit flags 0
  | OP_JNZ => negb (Z.testbit flags 0)
  | OP_JC => Z.testbit flags 1
  | OP_JNC => negb (Z.testbit flags 1)
  | OP_JN => Z.testbit flags 2
  | _ => false
  end.

(** The image of the one-instruction program [HALT]: its instruction word,
    low byte first. *)
Definition halt_program (code : Opcode -> Z) : list Z :=
  let instr := MAKE_INSTR (code OP_HALT) 0 0 0 in
  [Z.land instr 0xFF; Z.land (Z.shiftr instr 8) 0xFF].

(** What a test would read off a machine state: PC, SP, the word at the
    top of the stack and the console output. *)
Definition observe (r : option (CPU * Memory))
  : option (Z * Z * Z * list Z) :=
  cm <- r ;;
  Some (pc (fst cm), sp (fst cm), read_word (snd cm) (sp (fst cm)),
        console (snd cm)).

(** [CALL 0x0200] at 0x0100 and [RET] at 0x0200. *)
Definition call_mem : Memory :=
  memory_with [(0x0100, 0x8000); (0x0102, 0x0200); (0x0200, 0x8400)].

(** A CPU about to execute the CALL with stack pointer [s]. *)
Definition call_cpu (s : Z) : CPU := with_sp (with_pc CPU_new 0x0100) s.

(** [PUSH R1] at 0x0000 followed by [POP R2] at 0x0002, in the sequential
    numbering. *)
Definition push_pop_mem : Memory :=
  memory_with [(0x0000, MAKE_INSTR 34 0 1 0); (0x0002, MAKE_INSTR 35 2 0 0)].

(** A CPU after construction with 0x1234 put in R1 and the stack pointer
    at 0x8000. *)
Definition push_pop_cpu : CPU :=
  with_sp (with_registers CPU_new (fun j => if j =? 1 then 0x1234 else 0))
          0x8000.

(** [CMP R1, R2] at 0x0000, in the sequential numbering. *)
Definition cmp_mem : Memory := memory_with [(0x0000, MAKE_INSTR 24 0 1 2)].

(** A CPU after construction with 3 put in R1 and 5 in R2. *)
Definition cmp_cpu : CPU :=
  with_registers CPU_new
    (fun j => if j =? 1 then 3 else if j =? 2 then 5 else 0).

(** [JZ 0x0040] at 0x0000. *)
Definition jz_mem : Memory := memory_with [(0x0000, 0x6C00); (0x0002, 0x0040)].

(** An instruction word whose opcode field is 63, which the sequential
    numbering assigns to no opcode. *)
Definition unknown_mem : Memory := memory_with [(0x0000, 0xFC00)].

(** The three widths of signed immediates of the type header, to state
    what their sign extensions have in common. *)
Inductive imm_width : Type := Imm4 | Imm7 | Imm10.

Definition imm_bits (w : imm_width) : Z :=
  match w with Imm4 => 4 | Imm7 => 7 | Imm10 => 10 end.

Definition imm_field (w : imm_width) (instr : Z) : Z :=
  match w with
  | Imm4 => GET_IMM4 instr
  | Imm7 => GET_IMM7 instr
  | Imm10 => GET_IMM10 instr
  end.

Definition sign_extend (w : imm_width) (val : Z) : Z :=
  match w with
  | Imm4 => sign_extend_4bit val
  | Imm7 => sign_extend_7bit val
  | Imm10 => sign_extend_10bit val
  end.

(** The flag words that hold at most C and V. *)
Definition carry_overflow_only (f0 : Z) : Prop :=
  f0 = 0 \/ f0 = FLAG_CARRY \/ f0 = FLAG_OVERFLOW \/
  f0 = Z.lor FLAG_CARRY FLAG_OVERFLOW.

(** Every cell of the backing store holds a byte, as the element type of
    the array demands. *)
Definition bytes_ok (m : Memory) : Prop := forall a, 0 <= data m a < 256.

(** The CPU holds 16-bit values where the class declares them: the program
    counter, the stack pointer and the eight registers are words, and the
    flag word uses only its four defined bits. *)
Definition cpu_ok (c : CPU) : Prop :=
  0 <= pc c < 65536 /\
  0 <= sp c < 65536 /\
  0 <= flags c < 16 /\
  forall i, 0 <= i < NUM_REGISTERS -> 0 <= registers c i < 65536.

(** Families of opcodes, read off the arms of [execute_instruction]:
    the arms that index the register file with the 4-bit [rt] field, the
    arms that read an address word after the instruction word, the arms
    that assign the program counter, the arms that call the ALU with the
    flag word, the arms that write memory and the arms that move the
    stack pointer. *)
Definition uses_rt (o : Opcode) : bool :=
  match o with
  | OP_ADD | OP_SUB | OP_MUL | OP_DIV | OP_AND | OP_OR | OP_XOR
  | OP_SHL | OP_SHR | OP_CMP => true
  | _ => false
  end.

Definition has_address_word (o : Opcode) : bool :=
  match o with
  | OP_LOAD_DIR | OP_STORE_DIR | OP_JMP | OP_JZ | OP_JNZ | OP_JC | OP_JNC
  | OP_JN | OP_CALL => true
  | _ => false
  end.

Definition instruction_size (o : Opcode) : Z :=
  if has_address_word o then 4 else 2.

Definition is_control_transfer (o : Opcode) : bool :=
  match o with
  | OP_JMP | OP_JZ | OP_JNZ | OP_JC | OP_JNC | OP_JN | OP_CALL | OP_RET =>
      true
  | _ => false
  end.

Definition writes_flags (o : Opcode) : bool :=
  match o with
  | OP_ADD | OP_ADDI | OP_SUB | OP_SUBI | OP_MUL | OP_DIV | OP_INC | OP_DEC
  | OP_AND | OP_ANDI | OP_OR | OP_ORI | OP_XOR | OP_NOT
  | OP_SHL | OP_SHLI | OP_SHR | OP_SHRI | OP_CMP | OP_CMPI => true
  | _ => false
  end.

Definition writes_memory (o : Opcode) : bool :=
  match o with
  | OP_STORE_IND | OP_STORE_DIR | OP_CALL | OP_PUSH => true
  | _ => false
  end.

Definition moves_sp (o : Opcode) : bool :=
  match o with
  | OP_CALL | OP_RET | OP_PUSH | OP_POP => true
  | _ => false
  end.

(** The [n] consecutive addresses from [a] on, and the rows of a dump
    that start at [addr], [addr + 16], ..., [n] of them. *)
Fixpoint addresses_from (a : Z) (n : nat) : list Z :=
  match n with
  | O => []
  | S n' => a :: addresses_from (a + 1) n'
  end.

Fixpoint rows_from (m : Memory) (end_ addr : Z) (n : nat) : list DumpRow :=
  match n with
  | O => []
  | S n' => dump_row m addr end_ :: rows_from m end_ (addr + 16) n'
  end.

(** The number of rows a dump of [start .. end_] shows when it ends. *)
Definition dump_row_count (start end_ : Z) : nat :=
  if start <=? end_ then Z.to_nat ((end_ - start) / 16 + 1) else O.

(** ** The reference program in C (programs/factorial.c)

    [int factorial(int n)], on 32-bit [int]s.  A call either returns a
    value or multiplies past the range of [int], which in C has no
    defined behaviour.  The recursion of the model is cut after [fuel]
    nested calls; running out of them is an outcome of its own, told
    apart from the overflow. *)
Definition INT_MIN : Z := -2147483648.
Definition INT_MAX : Z := 2147483647.

Inductive Outcome : Type :=
| returns (value : Z)
| signed_overflow
| out_of_fuel.

Fixpoint factorial (fuel : nat) (n : Z) : Outcome :=
  match fuel with
  | O => out_of_fuel
  | S fuel' =>
      if n <=? 1 then returns 1
      else
        match factorial fuel' (n - 1) with
        | returns r =>
            let p := n * r in
            if (INT_MIN <=? p) && (p <=? INT_MAX) then returns p
            else signed_overflow
        | signed_overflow => signed_overflow
        | out_of_fuel => out_of_fuel
        end
  end.

(** The factorial of a natural number, as an integer. *)
Fixpoint Zfact (k : nat) : Z :=
  match k with
  | O => 1
  | S k' => Z.of_nat k * Zfact k'
  end.

(** * Properties *)

(** ** Conversions and bit tests *)

(** Split a conjunction into its conjuncts, without touching them. *)
Ltac split_all :=
  repeat match goal with |- _ /\ _ => split end.

Lemma to_word_range (x : Z) : 0 <= to_word x < 65536.
Proof. unfold to_word. apply Z.mod_pos_bound. lia. Qed.

Lemma to_word_small (x : Z) : 0 <= x < 65536 -> to_word x = x.
Proof. intros H. unfold to_word. apply Z.mod_small. exact H. Qed.

Lemma to_word_idem (x : Z) : to_word (to_word x) = to_word x.
Proof. apply to_word_small, to_word_range. Qed.

Lemma to_byte_range (x : Z) : 0 <= to_byte x < 256.
Proof. unfold to_byte. apply Z.mod_pos_bound. lia. Qed.

Lemma to_byte_small (x : Z) : 0 <= x < 256 -> to_byte x = x.
Proof. intros H. unfold to_byte. apply Z.mod_small. exact H. Qed.

Lemma land_pow2 (a n : Z) :
  0 <= n -> Z.land a (2 ^ n) = if Z.testbit a n then 2 ^ n else 0.
Proof.
  intros Hn. apply Z.bits_inj'. intros k Hk.
  rewrite Z.land_spec, Z.pow2_bits_eqb by exact Hn.
  destruct (Z.eqb_spec n k) as [->|Hne].
  - rewrite andb_true_r. destruct (Z.testbit a k) eqn:E.
    + rewrite Z.pow2_bits_true by exact Hk. reflexivity.
    + rewrite Z.bits_0. reflexivity.
  - rewrite andb_false_r. destruct (Z.testbit a n).
    + rewrite Z.pow2_bits_false by exact Hne. reflexivity.
    + rewrite Z.bits_0. reflexivity.
Qed.

Lemma nonzero_land_pow2 (a n : Z) :
  0 <= n -> nonzero (Z.land a (2 ^ n)) = Z.testbit a n.
Proof.
  intros Hn. unfold nonzero. rewrite land_pow2 by exact Hn.
  destruct (Z.testbit a n).
  - assert (0 < 2 ^ n) by (apply Z.pow_pos_nonneg; lia).
    destruct (Z.eqb_spec (2 ^ n) 0); [lia | reflexivity].
  - reflexivity.
Qed.

Lemma sign_bit_of_word (a : Z) :
  0 <= a < 65536 -> Z.testbit a 15 = (32768 <=? a).
Proof.
  intros Ha. rewrite Z.testbit_eqb by lia.
  change (2 ^ 15) with 32768.
  destruct (Z.leb_spec 32768 a).
  - replace (a / 32768) with 1 by (Z.to_euclidean_division_equations; lia).
    reflexivity.
  - rewrite Z.div_small by lia. reflexivity.
Qed.

(** ** ALU *)

(** C1 (as the code behaves): dividing by zero returns the sentinel 0xFFFF
    and an outgoing flag word that holds V and nothing else, whatever the
    dividend and the incoming flags.  In particular N is clear although
    bit 15 of the returned 0xFFFF is set: the branch for a zero divisor
    returns before the zero and negative flags are derived from the
    result. *)
Theorem div_by_zero_sets_only_V : forall a flags,
  ALU.div a 0 flags = (0xFFFF, FLAG_OVERFLOW) /\
  flag_set (snd (ALU.div a 0 flags)) FLAG_OVERFLOW = true /\
  flag_set (snd (ALU.div a 0 flags)) FLAG_ZERO = false /\
  flag_set (snd (ALU.div a 0 flags)) FLAG_NEGATIVE = false /\
  nonzero (Z.land (fst (ALU.div a 0 flags)) 0x8000) = true.
Proof.
  intros a flags.
  assert (E : ALU.div a 0 flags = (0xFFFF, FLAG_OVERFLOW)) by reflexivity.
  rewrite E. repeat split.
Qed.

(** S6 of the specification evaluated on the code: [div 0x1234 0]. *)
Example div_0x1234_by_zero :
  ALU.div 0x1234 0x0000 0 = (0xFFFF, 0x0008).
Proof. reflexivity. Qed.

(** S3 and S4 of the specification: carry out of 0xFFFF + 1 with a zero
    result, and borrow in 3 - 5 with a negative result. *)
Example add_0xFFFF_1 :
  ALU.add 0xFFFF 0x0001 0 = (0x0000, Z.lor FLAG_ZERO FLAG_CARRY).
Proof. reflexivity. Qed.

Example sub_3_5 :
  ALU.sub 0x0003 0x0005 0 = (0xFFFE, Z.lor FLAG_CARRY FLAG_NEGATIVE).
Proof. reflexivity. Qed.

(** A quotient with a nonzero divisor takes Z and N from the result. *)
Example div_7_by_9 : ALU.div 7 9 0 = (0, FLAG_ZERO).
Proof. reflexivity. Qed.

(** C7: for every ALU operation and all operands, the result and the
    outgoing flag word do not depend on the incoming flag word. *)
Theorem alu_flag_determinism : forall op a b flags1 flags2,
  alu_apply op a b flags1 = alu_apply op a b flags2.
Proof.
  intros op a b flags1 flags2.
  destruct op; reflexivity.
Qed.

(** What a shift by zero leaves in the flag word: Z and N of the operand,
    C and V clear. *)
Lemma shl_zero_count_value (a flags : Z) :
  0 <= a < 65536 ->
  ALU.shl a 0 flags =
    (a, if a =? 0 then FLAG_ZERO
        else if 32768 <=? a then FLAG_NEGATIVE else 0).
Proof.
  intros Ha. unfold ALU.shl.
  rewrite (to_word_small a Ha).
  change (to_word 0) with 0. change (0 >=? 16) with false.
  change (0 >? 0) with false. cbv iota. rewrite andb_false_l.
  rewrite Z.shiftl_0_r, (to_word_small a Ha).
  unfold ALU.set_negative_flag, ALU.set_zero_flag, ALU.clear_flags.
  rewrite (to_word_small a Ha).
  change (Z.land a 0x8000) with (Z.land a (2 ^ 15)).
  rewrite nonzero_land_pow2 by lia.
  rewrite (sign_bit_of_word a Ha).
  destruct (Z.eqb_spec a 0) as [->|Hnz].
  - reflexivity.
  - destruct (32768 <=? a); reflexivity.
Qed.

(** C8 (as the code behaves): a left shift by zero returns the operand
    unchanged, clears C and V, and sets Z and N from the operand: Z when
    it is zero, N when its bit 15 is set.  The flag word is zero exactly
    for operands strictly between 0 and 0x8000. *)
Theorem shl_zero_count : forall a flags,
  0 <= a < 65536 ->
  fst (ALU.shl a 0 flags) = a /\
  flag_set (snd (ALU.shl a 0 flags)) FLAG_CARRY = false /\
  flag_set (snd (ALU.shl a 0 flags)) FLAG_OVERFLOW = false /\
  flag_set (snd (ALU.shl a 0 flags)) FLAG_ZERO = (a =? 0) /\
  flag_set (snd (ALU.shl a 0 flags)) FLAG_NEGATIVE = (0x8000 <=? a) /\
  (snd (ALU.shl a 0 flags) = 0 <-> 0 < a < 0x8000).
Proof.
  intros a flags Ha. rewrite (shl_zero_count_value a flags Ha).
  cbn [fst snd].
  destruct (Z.eqb_spec a 0) as [->|Hnz].
  - split_all; try reflexivity.
    split; intros Hx; [discriminate Hx | lia].
  - destruct (Z.leb_spec 32768 a) as [Hge|Hlt].
    + split_all; try reflexivity.
      split; intros Hx; [discriminate Hx | lia].
    + split_all; try reflexivity.
      split; intros Hx; [lia | reflexivity].
Qed.

Lemma shl_zero_count_witness :
  0 <= 0x0042 < 65536 /\
  fst (ALU.shl 0x0042 0 0) = 0x0042 /\
  snd (ALU.shl 0x0042 0 0) = 0.
Proof.
  split; [lia|].
  destruct (shl_zero_count 0x0042 0 ltac:(lia)) as (Hr & _ & _ & _ & _ & Hf).
  split; [exact Hr | apply Hf; lia].
Defined.

(** C8, the claim as worded fails: shifting 0 by zero sets Z, and shifting
    0x8000 by zero sets N, so the flag word is not cleared. *)
Lemma shl_zero_count_flags_not_cleared :
  ALU.shl 0x0000 0 0 = (0x0000, FLAG_ZERO) /\
  ALU.shl 0x8000 0 0 = (0x8000, FLAG_NEGATIVE) /\
  FLAG_ZERO <> 0 /\ FLAG_NEGATIVE <> 0.
Proof. repeat split; discriminate. Qed.

(** ** Memory *)

Lemma read_byte_to_word (m : Memory) (a : Z) :
  read_byte m (to_word a) = read_byte m a.
Proof. unfold read_byte. rewrite to_word_idem. reflexivity. Qed.

Lemma read_word_to_word (m : Memory) (a : Z) :
  read_word m (to_word a) = read_word m a.
Proof. unfold read_word. rewrite to_word_idem. reflexivity. Qed.

Lemma read_word_range (m : Memory) (a : Z) : 0 <= read_word m a < 65536.
Proof. unfold read_word. apply to_word_range. Qed.

Lemma read_byte_write_byte_same (m : Memory) (a v : Z) :
  to_word a <> IO_CONSOLE_OUT ->
  read_byte (write_byte m a v) a = to_byte v.
Proof.
  intros Hport. unfold read_byte, write_byte.
  destruct (Z.eqb_spec (to_word a) IO_CONSOLE_OUT) as [E|_]; [contradiction|].
  cbn [data]. rewrite Z.eqb_refl. reflexivity.
Qed.

Lemma read_byte_write_byte_other (m : Memory) (a b v : Z) :
  to_word b <> to_word a ->
  read_byte (write_byte m a v) b = read_byte m b.
Proof.
  intros Hne. unfold read_byte, write_byte.
  destruct (Z.eqb_spec (to_word a) IO_CONSOLE_OUT) as [_|_]; cbn [data].
  - reflexivity.
  - destruct (Z.eqb_spec (to_word b) (to_word a)) as [E|_]; [contradiction|].
    reflexivity.
Qed.

Lemma read_byte_write_byte_port (m : Memory) (a b v : Z) :
  to_word a = IO_CONSOLE_OUT ->
  read_byte (write_byte m a v) b = read_byte m b.
Proof.
  intros Hport. unfold read_byte, write_byte.
  rewrite Hport. reflexivity.
Qed.

Lemma console_write_byte (m : Memory) (a v : Z) :
  console (write_byte m a v) =
    console m ++ (if to_word a =? IO_CONSOLE_OUT then [to_byte v] else []).
Proof.
  unfold write_byte. destruct (to_word a =? IO_CONSOLE_OUT); cbn [console].
  - reflexivity.
  - symmetry. apply app_nil_r.
Qed.

(** The two bytes of a word are at different addresses, also across the
    wrap from 0xFFFF to 0x0000. *)
Lemma next_address_differs (a : Z) : to_word (to_word a + 1) <> to_word a.
Proof.
  pose proof (to_word_range a) as Ha. unfold to_word in *.
  Z.to_euclidean_division_equations. lia.
Qed.

Lemma low_byte_is_byte (w : Z) : 0 <= Z.land w 0xFF < 256.
Proof.
  change 0xFF with (Z.ones 8). rewrite Z.land_ones by lia.
  apply Z.mod_pos_bound. reflexivity.
Qed.


(** Writing 0x41 to the port of a memory whose byte at 0xF000 is 0: the
    read returns 0 and the console received 0x41. *)
Example console_write_0x41 :
  read_byte (write_byte Memory_new 0xF000 0x41) 0xF000 = 0 /\
  console (write_byte Memory_new 0xF000 0x41) = [0x41].
Proof. split; reflexivity. Qed.

(** C2 (as the code behaves): after a word write of W at A, byte A reads
    W & 0xFF when A is not the console port 0xF000, and byte A+1 (the
    address taken modulo 2^16) reads (W >> 8) & 0xFF when A+1 is not the
    console port.  A byte of the word aimed at the port is emitted to the
    console instead of stored: the console output grows by exactly that
    byte (the low byte when A is the port, the high byte when A+1 is) and
    the read of the port returns the byte that was there before.  A word
    write that does not touch the port emits nothing. *)
Theorem write_word_little_endian : forall m A W,
  0 <= A < 65536 ->
  0 <= W < 65536 ->
  (A <> 0xF000 ->
   read_byte (write_word m A W) A = Z.land W 0xFF) /\
  (to_word (A + 1) <> 0xF000 ->
   read_byte (write_word m A W) (A + 1) = Z.land (Z.shiftr W 8) 0xFF) /\
  (A = 0xF000 ->
   read_byte (write_word m A W) A = read_byte m A /\
   console (write_word m A W) = console m ++ [Z.land W 0xFF]) /\
  (to_word (A + 1) = 0xF000 ->
   read_byte (write_word m A W) (A + 1) = read_byte m (A + 1) /\
   console (write_word m A W) =
     console m ++ [Z.land (Z.shiftr W 8) 0xFF]) /\
  (A <> 0xF000 -> to_word (A + 1) <> 0xF000 ->
   console (write_word m A W) = console m).
Proof.
  intros m A W HA HW.
  pose proof (next_address_differs A) as Hnext.
  assert (Hconsole : console (write_word m A W) =
            (console m ++ (if A =? 0xF000 then [Z.land W 0xFF] else [])) ++
            (if to_word (A + 1) =? 0xF000
             then [Z.land (Z.shiftr W 8) 0xFF] else [])).
  { unfold write_word.
    rewrite (to_word_small A HA), (to_word_small W HW).
    rewrite !console_write_byte, (to_word_small A HA).
    rewrite !(to_byte_small _ (low_byte_is_byte _)). reflexivity. }
  rewrite Hconsole. clear Hconsole.
  unfold write_word.
  rewrite (to_word_small A HA) in *. rewrite (to_word_small W HW).
  rewrite !(to_byte_small _ (low_byte_is_byte _)).
  split_all.
  - intros Hport.
    rewrite read_byte_write_byte_other by (rewrite to_word_small; auto).
    rewrite read_byte_write_byte_same by (rewrite to_word_small; auto).
    apply to_byte_small, low_byte_is_byte.
  - intros Hport.
    rewrite read_byte_write_byte_same by exact Hport.
    apply to_byte_small, low_byte_is_byte.
  - intros Hport. split.
    + rewrite read_byte_write_byte_other by (rewrite to_word_small; auto).
      apply read_byte_write_byte_port. rewrite to_word_small; auto.
    + subst A. change (to_word (0xF000 + 1) =? 0xF000) with false.
      rewrite Z.eqb_refl. apply app_nil_r.
  - intros Hport. split.
    + rewrite read_byte_write_byte_port by exact Hport.
      apply read_byte_write_byte_other. rewrite (to_word_small A HA).
      exact Hnext.
    + rewrite Hport, Z.eqb_refl.
      destruct (Z.eqb_spec A 0xF000) as [->|_]; [discriminate Hport|].
      rewrite app_nil_r. reflexivity.
  - intros Hlo Hhi.
    destruct (Z.eqb_spec A 0xF000) as [E|_]; [contradiction|].
    destruct (Z.eqb_spec (to_word (A + 1)) 0xF000) as [E|_]; [contradiction|].
    rewrite !app_nil_r. reflexivity.
Qed.

(** An ordinary store at 0x8000 is read back low byte first and prints
    nothing; a store at 0xEFFF keeps its low byte, while its high byte,
    aimed at the port, is printed and the port cell still reads 0. *)
Lemma write_word_little_endian_witness :
  0 <= 0x8000 < 65536 /\ 0 <= 0xEFFF < 65536 /\ 0 <= 0x1234 < 65536 /\
  read_byte (write_word Memory_new 0x8000 0x1234) 0x8000 = 0x34 /\
  read_byte (write_word Memory_new 0x8000 0x1234) (0x8000 + 1) = 0x12 /\
  console (write_word Memory_new 0x8000 0x1234) = [] /\
  read_byte (write_word Memory_new 0xEFFF 0x1234) 0xEFFF = 0x34 /\
  read_byte (write_word Memory_new 0xEFFF 0x1234) (0xEFFF + 1) = 0x00 /\
  console (write_word Memory_new 0xEFFF 0x1234) = [0x12].
Proof.
  split; [lia|]. split; [lia|]. split; [lia|].
  destruct (write_word_little_endian Memory_new 0x8000 0x1234
              ltac:(lia) ltac:(lia)) as (Hlo & Hhi & _ & _ & Hquiet).
  destruct (write_word_little_endian Memory_new 0xEFFF 0x1234
              ltac:(lia) ltac:(lia)) as (Hlo' & _ & _ & Hport & _).
  split; [apply Hlo; discriminate|].
  split; [apply Hhi; discriminate|].
  split; [apply Hquiet; discriminate|].
  split; [apply Hlo'; discriminate|].
  destruct (Hport eq_refl) as (Hread & Hconsole).
  split; [exact Hread | exact Hconsole].
Defined.

(** C2, the claim as worded fails at the console port: a word written at
    0xF000 does not leave its low byte there, and a word written at 0xEFFF
    does not leave its high byte at 0xF000; both bytes went to the
    console. *)
Lemma write_word_at_console_port_not_read_back :
  read_byte (write_word Memory_new 0xF000 0x1234) 0xF000 = 0x00 /\
  Z.land 0x1234 0xFF = 0x34 /\
  read_byte (write_word Memory_new 0xEFFF 0x1234) (0xEFFF + 1) = 0x00 /\
  Z.land (Z.shiftr 0x1234 8) 0xFF = 0x12 /\
  console (write_word Memory_new 0xF000 0x1234) = [0x34] /\
  console (write_word Memory_new 0xEFFF 0x1234) = [0x12].
Proof. split_all; reflexivity. Qed.

(** ** Register accessor *)

(** C10: [get_register] never fails: for an index from 0 to 7 it returns
    the stored register, for every other integer it returns 0, where the
    plain array access has no defined result. *)
Theorem get_register_total : forall c reg,
  (0 <= reg < NUM_REGISTERS ->
   get_register c reg = Some (registers c reg)) /\
  (~ 0 <= reg < NUM_REGISTERS ->
   get_register c reg = Some 0 /\ reg_read (registers c) reg = None) /\
  (exists v, get_register c reg = Some v).
Proof.
  intros c reg. unfold get_register, reg_read, NUM_REGISTERS.
  rewrite Z.geb_leb.
  destruct (Z.leb_spec 0 reg) as [Hlo|Hlo];
    destruct (Z.ltb_spec reg 8) as [Hhi|Hhi]; cbn [andb];
    split_all; try (intros Hx; try split; (reflexivity || lia)); eauto.
Qed.

Example get_register_samples :
  let c := with_registers (reset (mkCPU (fun _ => 0) 0 0 0 false false 0))
             (fun j => 0x100 + j) in
  get_register c 3 = Some 0x103 /\
  get_register c 8 = Some 0 /\
  get_register c (-1) = Some 0.
Proof. repeat split. Qed.

(** ** Dispatch on the opcode field *)

Lemma GET_OPCODE_range (instr : Z) : 0 <= GET_OPCODE instr < 64.
Proof.
  unfold GET_OPCODE. change 0x3F with (Z.ones 6).
  rewrite Z.land_ones by lia. apply Z.mod_pos_bound. reflexivity.
Qed.

Lemma opcode_field_of_fetched_word (m : Memory) (a : Z) :
  to_byte (GET_OPCODE (to_word (read_word m a))) = opcode_at m a.
Proof.
  unfold opcode_at.
  rewrite (to_word_small _ (read_word_range m a)).
  apply to_byte_small. pose proof (GET_OPCODE_range (read_word m a)). lia.
Qed.

Lemma all_opcodes_complete (o : Opcode) : In o all_opcodes.
Proof. destruct o; unfold all_opcodes; simpl; tauto. Qed.

Lemma decode_opcode_unknown (code : Opcode -> Z) (z : Z) :
  (forall o, code o <> z) -> decode_opcode code z = None.
Proof.
  intros Hno. unfold decode_opcode.
  induction all_opcodes as [|x l IH]; cbn [find].
  - reflexivity.
  - destruct (Z.eqb_spec (code x) z) as [E|_]; [destruct (Hno x E) | exact IH].
Qed.

Section WithOpcodeTable.

Variable code : Opcode -> Z.
Hypothesis code_ok : opcode_table_ok code.

Lemma find_code (l : list Opcode) (o : Opcode) :
  In o l -> find (fun x => code x =? code o) l = Some o.
Proof.
  destruct code_ok as [Hinj _].
  induction l as [|x l IH]; cbn [find In].
  - intros [].
  - intros Hin. destruct (Z.eqb_spec (code x) (code o)) as [E|Hne].
    + f_equal. apply Hinj. exact E.
    + destruct Hin as [->|Hin]; [contradiction | exact (IH Hin)].
Qed.

Lemma decode_opcode_code (o : Opcode) : decode_opcode code (code o) = Some o.
Proof. apply find_code, all_opcodes_complete. Qed.

(** The dispatch of [execute_instruction] on a fetched instruction whose
    opcode field is the number of [o]. *)
Lemma dispatch_fetched (m : Memory) (a : Z) (o : Opcode) :
  opcode_at m a = code o ->
  decode_opcode code (to_byte (GET_OPCODE (to_word (read_word m a)))) = Some o.
Proof.
  intros Hop. rewrite opcode_field_of_fetched_word, Hop.
  apply decode_opcode_code.
Qed.

End WithOpcodeTable.

Lemma sequential_codes_ok : opcode_table_ok sequential_codes.
Proof.
  split.
  - intros o1 o2; destruct o1; destruct o2; intros E;
      first [reflexivity | discriminate E].
  - intros o; destruct o; cbn; lia.
Qed.

(** ** The fetch-decode-execute step *)

Lemma to_word_add_4 (p : Z) : to_word (to_word (p + 2) + 2) = to_word (p + 4).
Proof.
  unfold to_word. rewrite Zplus_mod_idemp_l. f_equal. lia.
Qed.

Lemma halt_program_loaded (code : Opcode -> Z) (m : Memory) :
  0 <= code OP_HALT < 64 ->
  exists m', load_program m (halt_program code) 0 = Some m' /\
             console m' = console m /\
             opcode_at m' 0 = code OP_HALT.
Proof.
  intros Hh. eexists. split; [reflexivity|]. split; [reflexivity|].
  unfold opcode_at, read_word, read_byte, GET_OPCODE, halt_program, MAKE_INSTR.
  cbn [data store_bytes]. change (to_word 0) with 0.
  change (to_word (0 + 1)) with 1. change (0 + 1) with 1.
  cbn [Z.eqb].
  change (Z.land 0 7) with 0. change (Z.land 0 15) with 0.
  rewrite !Z.shiftl_0_l, !Z.lor_0_r.
  change 63 with (Z.ones 6). change 255 with (Z.ones 8).
  rewrite !Z.land_ones by lia.
  rewrite !Z.shiftl_mul_pow2, !Z.shiftr_div_pow2 by lia.
  change (2 ^ 6) with 64. change (2 ^ 8) with 256. change (2 ^ 10) with 1024.
  unfold to_word, to_byte.
  rewrite (Z.mod_small (code OP_HALT) 64) by exact Hh.
  replace (code OP_HALT * 1024 mod 256) with 0
    by (Z.to_euclidean_division_equations; lia).
  rewrite Z.lor_0_r.
  replace (code OP_HALT * 1024 / 256) with (code OP_HALT * 4)
    by (Z.to_euclidean_division_equations; lia).
  rewrite (Z.mod_small (code OP_HALT * 4) 256) by lia.
  rewrite (Z.mod_small (code OP_HALT * 4) 256) by lia.
  rewrite Pos.eqb_refl.
  Z.to_euclidean_division_equations. lia.
Qed.

Section Step.

Variable code : Opcode -> Z.
Hypothesis code_ok : opcode_table_ok code.

(** Unfold one step of a running CPU up to the dispatch and take the arm
    of the opcode that [Hop] says is stored at the program counter. *)
Ltac step_on Hrun Hop :=
  unfold step, fetch_decode_execute, execute_instruction;
  rewrite Hrun; cbv zeta;
  rewrite (dispatch_fetched code code_ok _ _ _ Hop);
  cbv beta iota.

Lemma step_HALT (c : CPU) (m : Memory) :
  halted c = false ->
  opcode_at m (pc c) = code OP_HALT ->
  step code c m =
    Some (mkCPU (registers c) (to_word (pc c + 2)) (sp c) (flags c) true
                (debug_mode c) (instruction_count c + 1), m).
Proof.
  intros Hrun Hop. step_on Hrun Hop. reflexivity.
Qed.

Lemma step_halted (c : CPU) (m : Memory) :
  halted c = true -> step code c m = Some (c, m).
Proof. intros Hh. unfold step. rewrite Hh. reflexivity. Qed.

(** C5: a running CPU that executes [HALT] becomes halted with the
    program counter 2 past the instruction and the instruction counter
    one higher, everything else as before; a step of a halted CPU changes
    nothing at all; and for the program [HALT] loaded at 0x0000, one step
    from reset gives halted, one instruction counted, PC = 0x0002. *)
Theorem halt_step : forall c m,
  (halted c = false ->
   opcode_at m (pc c) = code OP_HALT ->
   step code c m =
     Some (mkCPU (registers c) (to_word (pc c + 2)) (sp c) (flags c) true
                 (debug_mode c) (instruction_count c + 1), m)) /\
  (halted c = true -> step code c m = Some (c, m)) /\
  (exists m0 c1,
     load_program Memory_new (halt_program code) 0 = Some m0 /\
     step code CPU_new m0 = Some (c1, m0) /\
     halted c1 = true /\ instruction_count c1 = 1 /\ pc c1 = 0x0002 /\
     step code c1 m0 = Some (c1, m0)).
Proof.
  intros c m. split_all.
  - apply step_HALT.
  - apply step_halted.
  - destruct code_ok as [_ Hrange].
    destruct (halt_program_loaded code Memory_new (Hrange OP_HALT))
      as (m0 & Hload & _ & Hop).
    exists m0. eexists. split; [exact Hload|].
    split; [apply (step_HALT CPU_new m0); [reflexivity | exact Hop]|].
    split_all; reflexivity.
Qed.

(** C9: when the opcode field of the fetched instruction is the number of
    no opcode, the step completes: the CPU becomes halted, the program
    counter is 2 past the instruction, the instruction is counted, and the
    registers, SP, the flags and the memory are as before. *)
Theorem unknown_opcode_traps : forall c m,
  halted c = false ->
  (forall o, code o <> opcode_at m (pc c)) ->
  step code c m =
    Some (mkCPU (registers c) (to_word (pc c + 2)) (sp c) (flags c) true
                (debug_mode c) (instruction_count c + 1), m).
Proof.
  intros c m Hrun Hunknown.
  unfold step, fetch_decode_execute, execute_instruction.
  rewrite Hrun. cbv zeta.
  rewrite opcode_field_of_fetched_word.
  rewrite (decode_opcode_unknown code _ Hunknown).
  reflexivity.
Qed.

Lemma flag_test_is_bit (flags : Z) :
  nonzero (Z.land flags FLAG_ZERO) = Z.testbit flags 0 /\
  nonzero (Z.land flags FLAG_CARRY) = Z.testbit flags 1 /\
  nonzero (Z.land flags FLAG_NEGATIVE) = Z.testbit flags 2.
Proof.
  change FLAG_ZERO with (2 ^ 0). change FLAG_CARRY with (2 ^ 1).
  change FLAG_NEGATIVE with (2 ^ 2).
  rewrite !nonzero_land_pow2 by lia. split_all; reflexivity.
Qed.

(** C6: a conditional jump (JZ, JNZ, JC, JNC, JN) at the program counter
    leaves the program counter 4 past its own address when its condition
    is false in the current flags, and at the trailing address word when
    the condition is true; in both cases the registers, SP, the flags and
    the memory are as before and the instruction is counted. *)
Theorem conditional_jump_step : forall c m o,
  halted c = false ->
  is_conditional_jump o = true ->
  opcode_at m (pc c) = code o ->
  step code c m =
    Some (mkCPU (registers c)
                (if jump_predicate o (flags c) then read_word m (pc c + 2)
                 else to_word (pc c + 4))
                (sp c) (flags c) false (debug_mode c)
                (instruction_count c + 1), m).
Proof.
  intros c m o Hrun Hjump Hop.
  destruct (flag_test_is_bit (flags c)) as (HZ & HC & HN).
  destruct o; try discriminate Hjump; step_on Hrun Hop;
    unfold with_pc, with_instruction_count;
    cbn [pc registers sp flags halted debug_mode instruction_count
         jump_predicate];
    rewrite ?HZ, ?HC, ?HN, read_word_to_word, to_word_add_4, Hrun;
    match goal with
    | |- context [Z.testbit (flags c) ?k] => destruct (Z.testbit (flags c) k)
    end; reflexivity.
Qed.

End Step.

(** ** CALL and RET *)

Lemma word_of_its_bytes (W : Z) :
  0 <= W < 65536 ->
  Z.lor (Z.shiftl (Z.land (Z.shiftr W 8) 0xFF) 8) (Z.land W 0xFF) = W.
Proof.
  intros HW. apply Z.bits_inj'. intros n Hn.
  change 0xFF with (Z.ones 8).
  rewrite Z.lor_spec, Z.shiftl_spec, !Z.land_spec by exact Hn.
  destruct (Z.ltb_spec n 8) as [Hlow|Hhigh].
  - rewrite !(Z.testbit_neg_r _ (n - 8)) by lia.
    rewrite Z.testbit_ones_nonneg by lia.
    destruct (Z.ltb_spec n 8); [|lia].
    rewrite andb_true_r. reflexivity.
  - rewrite Z.shiftr_spec by lia.
    rewrite !Z.testbit_ones_nonneg by lia.
    replace (n - 8 + 8) with n by lia.
    destruct (Z.ltb_spec n 8); [lia|]. rewrite andb_false_r, orb_false_r.
    destruct (Z.ltb_spec (n - 8) 8) as [Hmid|Htop].
    + apply andb_true_r.
    + rewrite andb_false_r. symmetry.
      rewrite <- (Z.mod_small W (2 ^ 16)) by exact HW.
      apply Z.mod_pow2_bits_high. lia.
Qed.

Lemma read_word_write_word_same (m : Memory) (A W : Z) :
  to_word A <> IO_CONSOLE_OUT ->
  to_word (to_word A + 1) <> IO_CONSOLE_OUT ->
  read_word (write_word m A W) A = to_word W.
Proof.
  intros Hlo Hhi.
  pose proof (to_word_range W) as HW.
  pose proof (next_address_differs A) as Hnext.
  unfold read_word, write_word.
  rewrite !(to_byte_small _ (low_byte_is_byte _)).
  rewrite (read_byte_write_byte_same _ (to_word A + 1)) by exact Hhi.
  rewrite (read_byte_write_byte_other _ (to_word A + 1) (to_word A))
    by (rewrite to_word_idem; intros E; apply Hnext; symmetry; exact E).
  rewrite (read_byte_write_byte_same _ (to_word A))
    by (rewrite to_word_idem; exact Hlo).
  rewrite !(to_byte_small _ (low_byte_is_byte _)).
  rewrite (word_of_its_bytes _ HW). apply to_word_idem.
Qed.

Lemma stack_slot_off_port (s : Z) :
  0 <= s < 65536 -> s <> 0xF002 -> s <> 0xF001 ->
  to_word (to_word (s - 2)) <> IO_CONSOLE_OUT /\
  to_word (to_word (to_word (s - 2)) + 1) <> IO_CONSOLE_OUT /\
  to_word (to_word (s - 2) + 2) = s.
Proof.
  intros Hs H2 H1. unfold to_word, IO_CONSOLE_OUT.
  Z.to_euclidean_division_equations. lia.
Qed.

Section CallRet.

Variable code : Opcode -> Z.
Hypothesis code_ok : opcode_table_ok code.

Lemma step_CALL (c : CPU) (m : Memory) :
  halted c = false ->
  opcode_at m (pc c) = code OP_CALL ->
  step code c m =
    Some (mkCPU (registers c) (read_word m (pc c + 2)) (to_word (sp c - 2))
                (flags c) false (debug_mode c) (instruction_count c + 1),
          write_word m (to_word (sp c - 2)) (to_word (pc c + 4))).
Proof.
  intros Hrun Hop.
  unfold step, fetch_decode_execute, execute_instruction.
  rewrite Hrun. cbv zeta.
  rewrite (dispatch_fetched code code_ok _ _ _ Hop).
  cbv beta iota. unfold push, with_pc, with_sp, with_instruction_count.
  cbn [bind fst snd pc registers sp flags halted debug_mode instruction_count].
  rewrite read_word_to_word, to_word_add_4, Hrun. reflexivity.
Qed.

Lemma step_RET (c : CPU) (m : Memory) :
  halted c = false ->
  opcode_at m (pc c) = code OP_RET ->
  step code c m =
    Some (mkCPU (registers c) (read_word m (sp c)) (to_word (sp c + 2))
                (flags c) false (debug_mode c) (instruction_count c + 1), m).
Proof.
  intros Hrun Hop.
  unfold step, fetch_decode_execute, execute_instruction.
  rewrite Hrun. cbv zeta.
  rewrite (dispatch_fetched code code_ok _ _ _ Hop).
  cbv beta iota. unfold pop, with_pc, with_sp, with_instruction_count.
  cbn [bind fst snd pc registers sp flags halted debug_mode instruction_count].
  rewrite Hrun. reflexivity.
Qed.

(** C4 (as the code behaves): a CALL at address p whose trailing word is t,
    executed with a stack pointer whose new slot does not touch the
    console port (SP is neither 0xF002 nor 0xF001), moves SP down by 2,
    stores the return address p + 4 there and sets PC to t, all modulo
    2^16; a RET executed later with SP and the stored word as the CALL left
    them sets PC to p + 4 and SP to its value before the CALL. *)
Theorem call_then_ret_round_trip : forall c m,
  halted c = false ->
  0 <= sp c < 65536 ->
  opcode_at m (pc c) = code OP_CALL ->
  sp c <> 0xF002 ->
  sp c <> 0xF001 ->
  exists c1 m1,
    step code c m = Some (c1, m1) /\
    pc c1 = read_word m (pc c + 2) /\
    sp c1 = to_word (sp c - 2) /\
    read_word m1 (sp c1) = to_word (pc c + 4) /\
    forall c2 m2,
      halted c2 = false ->
      opcode_at m2 (pc c2) = code OP_RET ->
      sp c2 = sp c1 ->
      read_word m2 (sp c1) = read_word m1 (sp c1) ->
      exists c3,
        step code c2 m2 = Some (c3, m2) /\
        pc c3 = to_word (pc c + 4) /\
        sp c3 = sp c.
Proof.
  intros c m Hrun Hsp Hop H2 H1.
  destruct (stack_slot_off_port (sp c) Hsp H2 H1) as (Hlo & Hhi & Hback).
  assert (Hslot : read_word
            (write_word m (to_word (sp c - 2)) (to_word (pc c + 4)))
            (to_word (sp c - 2)) = to_word (pc c + 4)).
  { rewrite read_word_write_word_same by assumption. apply to_word_idem. }
  eexists. eexists. split; [apply (step_CALL c m Hrun Hop)|].
  cbn [pc sp]. split_all; try reflexivity.
  - exact Hslot.
  - intros c2 m2 Hrun2 Hop2 Hsp2 Hmem2.
    eexists. split; [apply (step_RET c2 m2 Hrun2 Hop2)|].
    cbn [pc sp]. rewrite Hsp2, Hmem2, Hslot, Hback. split; reflexivity.
Qed.

End CallRet.

(** ** Concrete runs under the sequential numbering *)

Lemma halt_step_witness :
  opcode_table_ok sequential_codes /\
  step sequential_codes CPU_new (memory_with [(0x0000, 0x9000)]) =
    Some (mkCPU (registers CPU_new) 0x0002 0xFFFF 0 true false 1,
          memory_with [(0x0000, 0x9000)]).
Proof.
  split; [exact sequential_codes_ok|].
  destruct (halt_step sequential_codes sequential_codes_ok CPU_new
              (memory_with [(0x0000, 0x9000)])) as (Hhalt & _ & _).
  apply Hhalt; reflexivity.
Defined.

Lemma unknown_opcode_traps_witness :
  opcode_table_ok sequential_codes /\
  halted CPU_new = false /\
  (forall o, sequential_codes o <> opcode_at unknown_mem (pc CPU_new)) /\
  step sequential_codes CPU_new unknown_mem =
    Some (mkCPU (registers CPU_new) 0x0002 0xFFFF 0 true false 1,
          unknown_mem).
Proof.
  assert (Hunknown :
    forall o, sequential_codes o <> opcode_at unknown_mem (pc CPU_new))
    by (intros o; destruct o; discriminate).
  split; [exact sequential_codes_ok|]. split; [reflexivity|].
  split; [exact Hunknown|].
  apply (unknown_opcode_traps sequential_codes CPU_new unknown_mem);
    [reflexivity | exact Hunknown].
Defined.

Lemma conditional_jump_step_witness :
  opcode_table_ok sequential_codes /\
  halted CPU_new = false /\
  is_conditional_jump OP_JZ = true /\
  opcode_at jz_mem (pc CPU_new) = sequential_codes OP_JZ /\
  jump_predicate OP_JZ (flags CPU_new) = false /\
  step sequential_codes CPU_new jz_mem =
    Some (mkCPU (registers CPU_new) 0x0004 0xFFFF 0 false false 1, jz_mem).
Proof.
  split; [exact sequential_codes_ok|].
  do 4 (split; [reflexivity|]).
  apply (conditional_jump_step sequential_codes sequential_codes_ok
           CPU_new jz_mem OP_JZ); reflexivity.
Defined.

(** The taken branch: with Z set, the same JZ goes to 0x0040. *)
Example jz_taken :
  observe (step sequential_codes (with_flags CPU_new FLAG_ZERO) jz_mem) =
    Some (0x0040, 0xFFFF, 0, []).
Proof. reflexivity. Qed.

Lemma call_then_ret_round_trip_witness :
  opcode_table_ok sequential_codes /\
  halted (call_cpu 0xFFFF) = false /\
  0 <= sp (call_cpu 0xFFFF) < 65536 /\
  opcode_at call_mem (pc (call_cpu 0xFFFF)) = sequential_codes OP_CALL /\
  sp (call_cpu 0xFFFF) <> 0xF002 /\
  sp (call_cpu 0xFFFF) <> 0xF001 /\
  exists c1 m1,
    step sequential_codes (call_cpu 0xFFFF) call_mem = Some (c1, m1) /\
    pc c1 = 0x0200 /\
    sp c1 = 0xFFFD /\
    read_word m1 (sp c1) = 0x0104 /\
    forall c2 m2,
      halted c2 = false ->
      opcode_at m2 (pc c2) = sequential_codes OP_RET ->
      sp c2 = sp c1 ->
      read_word m2 (sp c1) = read_word m1 (sp c1) ->
      exists c3,
        step sequential_codes c2 m2 = Some (c3, m2) /\
        pc c3 = 0x0104 /\
        sp c3 = 0xFFFF.
Proof.
  split; [exact sequential_codes_ok|].
  split; [reflexivity|]. split; [cbn; lia|]. split; [reflexivity|].
  split; [discriminate|]. split; [discriminate|].
  apply (call_then_ret_round_trip sequential_codes sequential_codes_ok
           (call_cpu 0xFFFF) call_mem);
    first [reflexivity | discriminate | cbn; lia].
Defined.

(** The CALL and the RET of [call_mem] run one after the other from the
    reset stack pointer: back at 0x0104 with SP = 0xFFFF. *)
Example call_ret_run :
  observe (run sequential_codes 2 (call_cpu 0xFFFF) call_mem) =
    Some (0x0104, 0xFFFF, 0, []).
Proof. reflexivity. Qed.

(** C4, the claim as worded fails when the pushed word meets the console
    port: with SP = 0xF001 the CALL at 0x0100 moves SP to 0xEFFF, but the
    high byte of the return address 0x0104 goes to the console instead of
    0xF000, the word read back at the new SP is 0x0004, and the RET that
    follows resumes at 0x0004 instead of 0x0104. *)
Lemma call_return_address_lost_on_console_port :
  observe (step sequential_codes (call_cpu 0xF001) call_mem) =
    Some (0x0200, 0xEFFF, 0x0004, [0x01]) /\
  to_word (0x0100 + 4) = 0x0104 /\
  0x0004 <> 0x0104 /\
  observe (run sequential_codes 2 (call_cpu 0xF001) call_mem) =
    Some (0x0004, 0xF001, 0, [0x01]).
Proof. split_all; try reflexivity. discriminate. Qed.

(** * Further properties of the code *)

(** ** Instruction words *)

(** Bit [n] of a field of an instruction word, for a concrete [n]: push
    the bit test through the masks and shifts, then evaluate the tests on
    constants and at negative positions. *)
Ltac field_bit :=
  repeat first
    [ rewrite Z.land_spec | rewrite Z.lor_spec
    | rewrite Z.shiftr_spec by lia | rewrite Z.shiftl_spec by lia ];
  repeat match goal with
         | |- context [Z.testbit ?a ?i] =>
             let i' := eval compute in i in
             progress change (Z.testbit a i) with (Z.testbit a i')
         end;
  repeat match goal with
         | |- context [Z.testbit ?a (Z.neg ?p)] =>
             change (Z.testbit a (Z.neg p)) with false
         | |- context [Z.testbit (Z.pos ?q) ?i] =>
             let v := eval compute in (Z.testbit (Z.pos q) i) in
             change (Z.testbit (Z.pos q) i) with v
         end;
  rewrite ?andb_true_r, ?andb_false_r, ?orb_false_r, ?orb_false_l,
          ?andb_true_l, ?andb_false_l;
  try reflexivity.

Lemma high_bits_of_mask (x m k n : Z) :
  m = Z.ones k -> 0 <= k <= n -> Z.testbit (Z.land x m) n = false.
Proof.
  intros -> Hk. rewrite Z.land_spec, Z.testbit_ones_nonneg by lia.
  destruct (Z.ltb_spec n k); [lia|]. apply andb_false_r.
Qed.

(** Enumerate the positions below a small bound. *)
Ltac bit_positions n :=
  match goal with
  | H : n < 3 |- _ =>
      assert (n = 0 \/ n = 1 \/ n = 2) as Hpos by lia
  | H : n < 4 |- _ =>
      assert (n = 0 \/ n = 1 \/ n = 2 \/ n = 3) as Hpos by lia
  | H : n < 6 |- _ =>
      assert (n = 0 \/ n = 1 \/ n = 2 \/ n = 3 \/ n = 4 \/ n = 5)
        as Hpos by lia
  | H : n < 7 |- _ =>
      assert (n = 0 \/ n = 1 \/ n = 2 \/ n = 3 \/ n = 4 \/ n = 5 \/ n = 6)
        as Hpos by lia
  end;
  repeat match goal with
         | H : _ \/ _ |- _ => destruct H as [H|H]
         end;
  subst n.

Lemma GET_OPCODE_MAKE_INSTR (op rd rs rt : Z) :
  GET_OPCODE (MAKE_INSTR op rd rs rt) = Z.land op 0x3F.
Proof.
  unfold GET_OPCODE, MAKE_INSTR. apply Z.bits_inj'. intros n Hn.
  destruct (Z.ltb_spec n 6) as [Hlow|Hhigh].
  - bit_positions n; field_bit.
  - rewrite !(high_bits_of_mask _ 63 6 n) by (reflexivity || lia). reflexivity.
Qed.

Lemma GET_RD_MAKE_INSTR (op rd rs rt : Z) :
  GET_RD (MAKE_INSTR op rd rs rt) = Z.land rd 0x07.
Proof.
  unfold GET_RD, MAKE_INSTR. apply Z.bits_inj'. intros n Hn.
  destruct (Z.ltb_spec n 3) as [Hlow|Hhigh].
  - bit_positions n; field_bit.
  - rewrite !(high_bits_of_mask _ 7 3 n) by (reflexivity || lia). reflexivity.
Qed.

Lemma GET_RS_MAKE_INSTR (op rd rs rt : Z) :
  GET_RS (MAKE_INSTR op rd rs rt) = Z.land rs 0x07.
Proof.
  unfold GET_RS, MAKE_INSTR. apply Z.bits_inj'. intros n Hn.
  destruct (Z.ltb_spec n 3) as [Hlow|Hhigh].
  - bit_positions n; field_bit.
  - rewrite !(high_bits_of_mask _ 7 3 n) by (reflexivity || lia). reflexivity.
Qed.

Lemma GET_RT_MAKE_INSTR (op rd rs rt : Z) :
  GET_RT (MAKE_INSTR op rd rs rt) = Z.land rt 0x0F.
Proof.
  unfold GET_RT, MAKE_INSTR. apply Z.bits_inj'. intros n Hn.
  destruct (Z.ltb_spec n 4) as [Hlow|Hhigh].
  - bit_positions n; field_bit.
  - rewrite !(high_bits_of_mask _ 15 4 n) by (reflexivity || lia). reflexivity.
Qed.

Lemma GET_OPCODE_MAKE_INSTR_IMM7 (op rd imm : Z) :
  GET_OPCODE (MAKE_INSTR_IMM7 op rd imm) = Z.land op 0x3F.
Proof.
  unfold GET_OPCODE, MAKE_INSTR_IMM7. apply Z.bits_inj'. intros n Hn.
  destruct (Z.ltb_spec n 6) as [Hlow|Hhigh].
  - bit_positions n; field_bit.
  - rewrite !(high_bits_of_mask _ 63 6 n) by (reflexivity || lia). reflexivity.
Qed.

Lemma GET_RD_MAKE_INSTR_IMM7 (op rd imm : Z) :
  GET_RD (MAKE_INSTR_IMM7 op rd imm) = Z.land rd 0x07.
Proof.
  unfold GET_RD, MAKE_INSTR_IMM7. apply Z.bits_inj'. intros n Hn.
  destruct (Z.ltb_spec n 3) as [Hlow|Hhigh].
  - bit_positions n; field_bit.
  - rewrite !(high_bits_of_mask _ 7 3 n) by (reflexivity || lia). reflexivity.
Qed.

Lemma GET_IMM7_MAKE_INSTR_IMM7 (op rd imm : Z) :
  GET_IMM7 (MAKE_INSTR_IMM7 op rd imm) = Z.land imm 0x7F.
Proof.
  unfold GET_IMM7, MAKE_INSTR_IMM7. apply Z.bits_inj'. intros n Hn.
  destruct (Z.ltb_spec n 7) as [Hlow|Hhigh].
  - bit_positions n; field_bit.
  - rewrite !(high_bits_of_mask _ 127 7 n) by (reflexivity || lia).
    reflexivity.
Qed.

Lemma word_when_high_bits_clear (x : Z) :
  (forall n, 16 <= n -> Z.testbit x n = false) -> to_word x = x.
Proof.
  intros Hhigh. unfold to_word. change 65536 with (2 ^ 16).
  apply Z.bits_inj'. intros n Hn.
  destruct (Z.ltb_spec n 16) as [Hlow|Hge].
  - apply Z.mod_pow2_bits_low. lia.
  - rewrite Z.mod_pow2_bits_high by lia. symmetry. apply Hhigh. exact Hge.
Qed.

Lemma MAKE_INSTR_is_word (op rd rs rt : Z) :
  to_word (MAKE_INSTR op rd rs rt) = MAKE_INSTR op rd rs rt.
Proof.
  apply word_when_high_bits_clear. intros n Hn. unfold MAKE_INSTR.
  rewrite !Z.lor_spec, !Z.shiftl_spec by lia.
  rewrite (high_bits_of_mask op 63 6), (high_bits_of_mask rd 7 3),
    (high_bits_of_mask rs 7 3), (high_bits_of_mask rt 15 4)
    by (reflexivity || lia).
  reflexivity.
Qed.

Lemma MAKE_INSTR_IMM7_is_word (op rd imm : Z) :
  to_word (MAKE_INSTR_IMM7 op rd imm) = MAKE_INSTR_IMM7 op rd imm.
Proof.
  apply word_when_high_bits_clear. intros n Hn. unfold MAKE_INSTR_IMM7.
  rewrite !Z.lor_spec, !Z.shiftl_spec by lia.
  rewrite (high_bits_of_mask op 63 6), (high_bits_of_mask rd 7 3),
    (high_bits_of_mask imm 127 7) by (reflexivity || lia).
  reflexivity.
Qed.

(** X1: the decoding macros undo the encoding macros.  A word built by
    [MAKE_INSTR] is a 16-bit word whose opcode, rd, rs and rt fields are
    the arguments cut to 6, 3, 3 and 4 bits; a word built by
    [MAKE_INSTR_IMM7] gives back the opcode, rd and the 7-bit
    immediate. *)
Theorem instruction_fields_round_trip : forall op rd rs rt imm,
  (GET_OPCODE (MAKE_INSTR op rd rs rt) = Z.land op 0x3F /\
   GET_RD (MAKE_INSTR op rd rs rt) = Z.land rd 0x07 /\
   GET_RS (MAKE_INSTR op rd rs rt) = Z.land rs 0x07 /\
   GET_RT (MAKE_INSTR op rd rs rt) = Z.land rt 0x0F /\
   GET_IMM4 (MAKE_INSTR op rd rs rt) = Z.land rt 0x0F /\
   0 <= MAKE_INSTR op rd rs rt < 65536) /\
  (GET_OPCODE (MAKE_INSTR_IMM7 op rd imm) = Z.land op 0x3F /\
   GET_RD (MAKE_INSTR_IMM7 op rd imm) = Z.land rd 0x07 /\
   GET_IMM7 (MAKE_INSTR_IMM7 op rd imm) = Z.land imm 0x7F /\
   0 <= MAKE_INSTR_IMM7 op rd imm < 65536).
Proof.
  intros op rd rs rt imm. split_all.
  - apply GET_OPCODE_MAKE_INSTR.
  - apply GET_RD_MAKE_INSTR.
  - apply GET_RS_MAKE_INSTR.
  - apply GET_RT_MAKE_INSTR.
  - apply GET_RT_MAKE_INSTR.
  - rewrite <- MAKE_INSTR_is_word. apply to_word_range.
  - rewrite <- MAKE_INSTR_is_word. apply to_word_range.
  - apply GET_OPCODE_MAKE_INSTR_IMM7.
  - apply GET_RD_MAKE_INSTR_IMM7.
  - apply GET_IMM7_MAKE_INSTR_IMM7.
  - rewrite <- MAKE_INSTR_IMM7_is_word. apply to_word_range.
  - rewrite <- MAKE_INSTR_IMM7_is_word. apply to_word_range.
Qed.

(** ** Sign extension *)

Lemma top_bit_of_field (v k : Z) :
  0 <= k -> 0 <= v < 2 ^ (k + 1) -> Z.testbit v k = (2 ^ k <=? v).
Proof.
  intros Hk Hv. rewrite Z.testbit_eqb by exact Hk.
  assert (Hpow : 2 ^ (k + 1) = 2 * 2 ^ k)
    by (rewrite Z.pow_add_r by lia; lia).
  assert (Hpos : 0 < 2 ^ k) by (apply Z.pow_pos_nonneg; lia).
  destruct (Z.leb_spec (2 ^ k) v) as [Hge|Hlt].
  - replace (v / 2 ^ k) with 1; [reflexivity|].
    apply Z.div_unique with (v - 2 ^ k); lia.
  - rewrite Z.div_small by lia. reflexivity.
Qed.

Lemma lor_above_field (v h k : Z) :
  0 <= k -> 0 <= v < 2 ^ k -> Z.lor v (Z.shiftl h k) = v + h * 2 ^ k.
Proof.
  intros Hk Hv.
  assert (Hdisjoint : Z.land v (Z.shiftl h k) = 0).
  { apply Z.bits_inj'. intros n Hn.
    rewrite Z.land_spec, Z.shiftl_spec, Z.bits_0 by exact Hn.
    destruct (Z.ltb_spec n k) as [Hlow|Hhigh].
    - rewrite (Z.testbit_neg_r h) by lia. apply andb_false_r.
    - rewrite <- (Z.mod_small v (2 ^ k)) by exact Hv.
      rewrite Z.mod_pow2_bits_high by lia. reflexivity. }
  rewrite <- Z.lxor_lor by exact Hdisjoint.
  rewrite <- Z.add_nocarry_lxor by exact Hdisjoint.
  rewrite Z.shiftl_mul_pow2 by exact Hk. reflexivity.
Qed.

(** The value of each sign extension on a field value [v]. *)
Lemma sign_extend_value (w : imm_width) (v : Z) :
  0 <= v < 2 ^ imm_bits w ->
  sign_extend w v =
    if v <? 2 ^ (imm_bits w - 1) then v else v - 2 ^ imm_bits w.
Proof.
  intros Hv.
  destruct w; cbn [imm_bits sign_extend] in *;
    unfold sign_extend_4bit, sign_extend_7bit, sign_extend_10bit;
    (rewrite (to_word_small v) by (cbn in Hv; lia)).
  - change 0x08 with (2 ^ 3). rewrite land_pow2 by lia.
    rewrite (top_bit_of_field v 3) by (cbn in *; lia).
    change 0xFFF0 with (Z.shiftl 0xFFF 4).
    change (2 ^ (4 - 1)) with 8. change (2 ^ 3) with 8. change (2 ^ 4) with 16.
    change (2 ^ 4) with 16 in Hv.
    destruct (Z.leb_spec 8 v) as [Hge|Hlt];
      destruct (Z.ltb_spec v 8) as [Hlt'|Hge']; try lia; cbn [Z.eqb negb].
    + rewrite lor_above_field by (cbn; lia). unfold to_int16.
      change (2 ^ 4) with 16. Z.to_euclidean_division_equations. lia.
    + unfold to_int16. Z.to_euclidean_division_equations. lia.
  - change 0x40 with (2 ^ 6). rewrite land_pow2 by lia.
    rewrite (top_bit_of_field v 6) by (cbn in *; lia).
    change 0xFF80 with (Z.shiftl 0x1FF 7).
    change (2 ^ (7 - 1)) with 64. change (2 ^ 6) with 64.
    change (2 ^ 7) with 128. change (2 ^ 7) with 128 in Hv.
    destruct (Z.leb_spec 64 v) as [Hge|Hlt];
      destruct (Z.ltb_spec v 64) as [Hlt'|Hge']; try lia; cbn [Z.eqb negb].
    + rewrite lor_above_field by (cbn; lia). unfold to_int16.
      change (2 ^ 7) with 128. Z.to_euclidean_division_equations. lia.
    + unfold to_int16. Z.to_euclidean_division_equations. lia.
  - change 0x200 with (2 ^ 9). rewrite land_pow2 by lia.
    rewrite (top_bit_of_field v 9) by (cbn in *; lia).
    change 0xFC00 with (Z.shiftl 0x3F 10).
    change (2 ^ (10 - 1)) with 512. change (2 ^ 9) with 512.
    change (2 ^ 10) with 1024. change (2 ^ 10) with 1024 in Hv.
    destruct (Z.leb_spec 512 v) as [Hge|Hlt];
      destruct (Z.ltb_spec v 512) as [Hlt'|Hge']; try lia; cbn [Z.eqb negb].
    + rewrite lor_above_field by (cbn; lia). unfold to_int16.
      change (2 ^ 10) with 1024. Z.to_euclidean_division_equations. lia.
    + unfold to_int16. Z.to_euclidean_division_equations. lia.
Qed.

Lemma imm_field_mod (w : imm_width) (instr : Z) :
  imm_field w instr = instr mod 2 ^ imm_bits w.
Proof.
  destruct w; cbn [imm_field imm_bits];
    unfold GET_IMM4, GET_IMM7, GET_IMM10.
  - apply (Z.land_ones instr 4). lia.
  - apply (Z.land_ones instr 7). lia.
  - apply (Z.land_ones instr 10). lia.
Qed.

(** X2: sign extension undoes the cut of a signed immediate to its field.
    For each of the three widths (4, 7 and 10 bits), a value that fits the
    signed range of the width, cut to the field by the extraction macro,
    is given back by the sign extension; in particular the immediates
    packed by [MAKE_INSTR] (4 bits) and [MAKE_INSTR_IMM7] come back.
    Whatever the instruction word, the extended field lies in the signed
    range of the width. *)
Theorem sign_extend_round_trip : forall w x,
  - 2 ^ (imm_bits w - 1) <= x < 2 ^ (imm_bits w - 1) ->
  sign_extend w (imm_field w x) = x /\
  (forall op rd rs,
     sign_extend Imm4 (GET_IMM4 (MAKE_INSTR op rd rs x)) =
       sign_extend Imm4 (imm_field Imm4 x)) /\
  (forall op rd,
     sign_extend Imm7 (GET_IMM7 (MAKE_INSTR_IMM7 op rd x)) =
       sign_extend Imm7 (imm_field Imm7 x)) /\
  (forall instr,
     - 2 ^ (imm_bits w - 1) <= sign_extend w (imm_field w instr)
       < 2 ^ (imm_bits w - 1)).
Proof.
  intros w x Hx.
  assert (Hfield : forall y, 0 <= imm_field w y < 2 ^ imm_bits w).
  { intros y. rewrite imm_field_mod. apply Z.mod_pos_bound.
    destruct w; reflexivity. }
  split_all.
  - rewrite (sign_extend_value w _ (Hfield x)), imm_field_mod.
    destruct w; cbn [imm_bits] in *;
      match goal with
      | |- context [?a <? ?b] => destruct (Z.ltb_spec a b)
      end; Z.to_euclidean_division_equations; lia.
  - intros op rd rs. unfold GET_IMM4.
    change (Z.land (MAKE_INSTR op rd rs x) 15)
      with (GET_RT (MAKE_INSTR op rd rs x)).
    rewrite GET_RT_MAKE_INSTR. reflexivity.
  - intros op rd. rewrite GET_IMM7_MAKE_INSTR_IMM7. reflexivity.
  - intros instr. rewrite (sign_extend_value w _ (Hfield instr)).
    pose proof (Hfield instr) as Hf.
    destruct w; cbn [imm_bits] in *;
      match goal with
      | |- context [?a <? ?b] => destruct (Z.ltb_spec a b)
      end; lia.
Qed.

Lemma sign_extend_round_trip_witness :
  - 2 ^ (imm_bits Imm7 - 1) <= -5 < 2 ^ (imm_bits Imm7 - 1) /\
  sign_extend_7bit (GET_IMM7 (MAKE_INSTR_IMM7 1 3 (-5))) = -5.
Proof.
  assert (Hrange : - 2 ^ (imm_bits Imm7 - 1) <= -5 < 2 ^ (imm_bits Imm7 - 1))
    by (cbn; lia).
  split; [exact Hrange|].
  destruct (sign_extend_round_trip Imm7 (-5) Hrange) as (Hx & _ & H7 & _).
  exact (eq_trans (H7 1 3) Hx).
Defined.

(** ** Arithmetic meaning of the ALU operations *)

Lemma sign_test (r : Z) :
  0 <= r < 65536 -> nonzero (Z.land r 0x8000) = (32768 <=? r).
Proof.
  intros Hr. change 0x8000 with (2 ^ 15).
  rewrite nonzero_land_pow2 by lia. apply sign_bit_of_word. exact Hr.
Qed.

Lemma to_int16_word (a : Z) :
  0 <= a < 65536 -> to_int16 a = if a <? 32768 then a else a - 65536.
Proof.
  intros Ha. unfold to_int16.
  destruct (Z.ltb_spec a 32768); Z.to_euclidean_division_equations; lia.
Qed.

(** Decide every comparison of the goal, dropping impossible cases. *)
Ltac cmp_cases :=
  try (exfalso; lia);
  try match goal with
      | |- context [?x >? ?y] => rewrite (Z.gtb_ltb x y); cmp_cases
      | |- context [?x >=? ?y] => rewrite (Z.geb_leb x y); cmp_cases
      | |- context [?x <=? ?y] => destruct (Z.leb_spec x y); cmp_cases
      | |- context [?x <? ?y] => destruct (Z.ltb_spec x y); cmp_cases
      | |- context [?x =? ?y] => destruct (Z.eqb_spec x y); cmp_cases
      end.

(** X3: what [add] computes on words.  The result is the sum modulo 2^16;
    C tells that the unsigned sum does not fit 16 bits, Z that the result
    is zero, N that bit 15 of the result is set, and V that the sum of the
    operands read as signed 16-bit numbers leaves the signed range. *)
Theorem add_meaning : forall a b flags,
  0 <= a < 65536 -> 0 <= b < 65536 ->
  let r := fst (ALU.add a b flags) in
  let f := snd (ALU.add a b flags) in
  r = (a + b) mod 65536 /\
  flag_set f FLAG_CARRY = (65536 <=? a + b) /\
  flag_set f FLAG_ZERO = (r =? 0) /\
  flag_set f FLAG_NEGATIVE = (32768 <=? r) /\
  flag_set f FLAG_OVERFLOW =
    negb ((-32768 <=? to_int16 a + to_int16 b) &&
          (to_int16 a + to_int16 b <=? 32767)).
Proof.
  intros a b flags Ha Hb. cbv zeta.
  rewrite (to_int16_word a Ha), (to_int16_word b Hb).
  unfold ALU.add, ALU.set_zero_flag, ALU.set_negative_flag, ALU.clear_flags.
  rewrite (to_word_small a Ha), (to_word_small b Hb).
  unfold to_uint32. rewrite (Z.mod_small (a + b) 4294967296) by lia.
  rewrite to_word_idem.
  pose proof (to_word_range (a + b)) as Hr.
  rewrite !(sign_test _ Ha), !(sign_test _ Hb), !(sign_test _ Hr).
  cbn [fst snd].
  assert (Hsum : to_word (a + b) = if a + b <? 65536 then a + b
                                   else a + b - 65536).
  { unfold to_word. destruct (Z.ltb_spec (a + b) 65536);
      Z.to_euclidean_division_equations; lia. }
  fold (to_word (a + b)). rewrite Hsum. clear Hsum Hr.
  destruct (Z.ltb_spec a 32768); destruct (Z.ltb_spec b 32768);
    cmp_cases; split_all; reflexivity.
Qed.

Lemma add_meaning_witness :
  0 <= 0x7FFF < 65536 /\ 0 <= 0x0001 < 65536 /\
  fst (ALU.add 0x7FFF 0x0001 0) = 0x8000 /\
  flag_set (snd (ALU.add 0x7FFF 0x0001 0)) FLAG_OVERFLOW = true /\
  flag_set (snd (ALU.add 0x7FFF 0x0001 0)) FLAG_CARRY = false.
Proof.
  split; [lia|]. split; [lia|].
  destruct (add_meaning 0x7FFF 0x0001 0 ltac:(lia) ltac:(lia))
    as (Hr & Hc & _ & _ & Hv).
  split; [exact Hr|]. split; [exact Hv | exact Hc].
Defined.

(** The result and the flags of a subtraction of words. *)
Lemma sub_flags_value : forall a b flags,
  0 <= a < 65536 -> 0 <= b < 65536 ->
  let r := fst (ALU.sub a b flags) in
  let f := snd (ALU.sub a b flags) in
  r = (a - b) mod 65536 /\
  flag_set f FLAG_CARRY = (a <? b) /\
  flag_set f FLAG_ZERO = (a =? b) /\
  flag_set f FLAG_NEGATIVE = (32768 <=? r) /\
  flag_set f FLAG_OVERFLOW =
    negb ((-32768 <=? to_int16 a - to_int16 b) &&
          (to_int16 a - to_int16 b <=? 32767)) /\
  ALU.compare a b flags = (0, f).
Proof.
  intros a b flags Ha Hb. cbv zeta.
  rewrite (to_int16_word a Ha), (to_int16_word b Hb).
  unfold ALU.compare.
  unfold ALU.sub, ALU.set_zero_flag, ALU.set_negative_flag, ALU.clear_flags.
  rewrite (to_word_small a Ha), (to_word_small b Hb).
  rewrite to_word_idem.
  pose proof (to_word_range (a - b)) as Hr.
  rewrite !(sign_test _ Ha), !(sign_test _ Hb), !(sign_test _ Hr).
  cbn [fst snd].
  assert (Hdiff : to_word (a - b) = if a <? b then a - b + 65536 else a - b).
  { unfold to_word. destruct (Z.ltb_spec a b);
      Z.to_euclidean_division_equations; lia. }
  fold (to_word (a - b)). rewrite Hdiff. clear Hdiff Hr.
  destruct (Z.ltb_spec a 32768); destruct (Z.ltb_spec b 32768);
    destruct (Z.ltb_spec a b);
    cmp_cases; split_all; reflexivity.
Qed.

(** X4: what [sub] and [compare] compute on words.  The result of [sub]
    is the difference modulo 2^16; C tells that a borrow occurred (a < b
    as unsigned numbers), Z that the operands are equal, N that bit 15 of
    the result is set, and V that the difference of the operands read as
    signed numbers leaves the signed range.  [compare] returns 0 and the
    flags of [sub]. *)
Theorem sub_meaning : forall a b flags,
  0 <= a < 65536 -> 0 <= b < 65536 ->
  let r := fst (ALU.sub a b flags) in
  let f := snd (ALU.sub a b flags) in
  r = (a - b) mod 65536 /\
  flag_set f FLAG_CARRY = (a <? b) /\
  flag_set f FLAG_ZERO = (a =? b) /\
  flag_set f FLAG_NEGATIVE = (32768 <=? r) /\
  flag_set f FLAG_OVERFLOW =
    negb ((-32768 <=? to_int16 a - to_int16 b) &&
          (to_int16 a - to_int16 b <=? 32767)) /\
  ALU.compare a b flags = (0, f).
Proof.
  intros a b flags Ha Hb. exact (sub_flags_value a b flags Ha Hb).
Qed.

Lemma sub_meaning_witness :
  0 <= 0x0003 < 65536 /\ 0 <= 0x0005 < 65536 /\
  fst (ALU.sub 0x0003 0x0005 0) = 0xFFFE /\
  flag_set (snd (ALU.sub 0x0003 0x0005 0)) FLAG_CARRY = true /\
  flag_set (snd (ALU.sub 0x0003 0x0005 0)) FLAG_ZERO = false.
Proof.
  split; [lia|]. split; [lia|].
  destruct (sub_meaning 0x0003 0x0005 0 ltac:(lia) ltac:(lia))
    as (Hr & Hc & Hz & _).
  split; [exact Hr|]. split; [exact Hc | exact Hz].
Defined.

(** X5: what [mul] computes on words.  The result is the product modulo
    2^16; C tells that the product does not fit 16 bits; Z and N describe
    the result; V is never set. *)
Theorem mul_meaning : forall a b flags,
  0 <= a < 65536 -> 0 <= b < 65536 ->
  let r := fst (ALU.mul a b flags) in
  let f := snd (ALU.mul a b flags) in
  r = (a * b) mod 65536 /\
  flag_set f FLAG_CARRY = (65536 <=? a * b) /\
  flag_set f FLAG_ZERO = (r =? 0) /\
  flag_set f FLAG_NEGATIVE = (32768 <=? r) /\
  flag_set f FLAG_OVERFLOW = false.
Proof.
  intros a b flags Ha Hb. cbv zeta.
  unfold ALU.mul, ALU.set_zero_flag, ALU.set_negative_flag, ALU.clear_flags.
  rewrite (to_word_small a Ha), (to_word_small b Hb).
  assert (Hp : 0 <= a * b < 4294967296) by nia.
  unfold to_uint32. rewrite (Z.mod_small (a * b) 4294967296) by exact Hp.
  replace (Z.land (a * b) 0xFFFF) with (to_word (a * b))
    by (symmetry; apply (Z.land_ones (a * b) 16); lia).
  rewrite !to_word_idem.
  pose proof (to_word_range (a * b)) as Hr.
  rewrite !(sign_test _ Hr). cbn [fst snd].
  change ((a * b) mod 65536) with (to_word (a * b)).
  generalize dependent (to_word (a * b)). intros r Hr.
  generalize dependent (a * b). intros p Hp.
  cmp_cases; split_all; reflexivity.
Qed.

Lemma mul_meaning_witness :
  0 <= 0x0100 < 65536 /\ 0 <= 0x0100 < 65536 /\
  fst (ALU.mul 0x0100 0x0100 0) = 0 /\
  flag_set (snd (ALU.mul 0x0100 0x0100 0)) FLAG_CARRY = true.
Proof.
  split; [lia|]. split; [lia|].
  destruct (mul_meaning 0x0100 0x0100 0 ltac:(lia) ltac:(lia))
    as (Hr & Hc & _).
  split; [exact Hr | exact Hc].
Defined.

(** X6: what [div] computes on words when the divisor is not zero.  The
    result is the integer quotient, so that a = b * q + r with r < b; Z is
    set exactly when a < b, N describes the quotient, and neither C nor V
    is set. *)
Theorem div_meaning : forall a b flags,
  0 <= a < 65536 -> 0 < b < 65536 ->
  let q := fst (ALU.div a b flags) in
  let f := snd (ALU.div a b flags) in
  q = a / b /\
  b * q <= a < b * q + b /\
  flag_set f FLAG_ZERO = (a <? b) /\
  flag_set f FLAG_NEGATIVE = (32768 <=? q) /\
  flag_set f FLAG_CARRY = false /\
  flag_set f FLAG_OVERFLOW = false.
Proof.
  intros a b flags Ha Hb. cbv zeta.
  unfold ALU.div, ALU.set_zero_flag, ALU.set_negative_flag, ALU.clear_flags.
  rewrite (to_word_small a Ha), (to_word_small b) by lia.
  destruct (Z.eqb_spec b 0) as [E|_]; [lia|].
  assert (Hq : 0 <= a / b < 65536).
  { split; [apply Z.div_pos; lia|].
    apply Z.div_lt_upper_bound; nia. }
  assert (Hqr : b * (a / b) <= a < b * (a / b) + b).
  { pose proof (Z.mul_div_le a b ltac:(lia)).
    pose proof (Z.mul_succ_div_gt a b ltac:(lia)). lia. }
  rewrite !(to_word_small (a / b)) by exact Hq.
  rewrite !(sign_test _ Hq). cbn [fst snd].
  generalize dependent (a / b). intros q Hq Hqr.
  destruct (Z.ltb_spec a b);
    cmp_cases; split_all; first [reflexivity | nia].
Qed.

Lemma div_meaning_witness :
  0 <= 120 < 65536 /\ 0 < 100 < 65536 /\
  fst (ALU.div 120 100 0) = 1 /\
  flag_set (snd (ALU.div 120 100 0)) FLAG_ZERO = false.
Proof.
  split; [lia|]. split; [lia|].
  destruct (div_meaning 120 100 0 ltac:(lia) ltac:(lia)) as (Hq & _ & Hz & _).
  split; [exact Hq | exact Hz].
Defined.

(** ** Logical operations and shifts *)

Lemma word_high_bits (a n : Z) :
  0 <= a < 65536 -> 16 <= n -> Z.testbit a n = false.
Proof.
  intros Ha Hn. rewrite <- (Z.mod_small a (2 ^ 16)) by exact Ha.
  apply Z.mod_pow2_bits_high. lia.
Qed.

Lemma land_is_word (a b : Z) :
  0 <= a < 65536 -> 0 <= b < 65536 -> to_word (Z.land a b) = Z.land a b.
Proof.
  intros Ha Hb. apply word_when_high_bits_clear. intros n Hn.
  rewrite Z.land_spec, (word_high_bits a n Ha Hn). reflexivity.
Qed.

Lemma lor_is_word (a b : Z) :
  0 <= a < 65536 -> 0 <= b < 65536 -> to_word (Z.lor a b) = Z.lor a b.
Proof.
  intros Ha Hb. apply word_when_high_bits_clear. intros n Hn.
  rewrite Z.lor_spec, (word_high_bits a n Ha Hn), (word_high_bits b n Hb Hn).
  reflexivity.
Qed.

Lemma lxor_is_word (a b : Z) :
  0 <= a < 65536 -> 0 <= b < 65536 -> to_word (Z.lxor a b) = Z.lxor a b.
Proof.
  intros Ha Hb. apply word_when_high_bits_clear. intros n Hn.
  rewrite Z.lxor_spec, (word_high_bits a n Ha Hn), (word_high_bits b n Hb Hn).
  reflexivity.
Qed.

Lemma lnot_as_word (a : Z) :
  0 <= a < 65536 -> to_word (Z.lnot a) = 65535 - a.
Proof.
  intros Ha. unfold to_word, Z.lnot.
  Z.to_euclidean_division_equations. lia.
Qed.

(** The flag word that the logical family leaves for a result [r]. *)
Lemma Z_N_flags_of_word (r : Z) :
  0 <= r < 65536 ->
  let f := ALU.set_negative_flag r (ALU.set_zero_flag r 0) in
  flag_set f FLAG_ZERO = (r =? 0) /\
  flag_set f FLAG_NEGATIVE = (32768 <=? r) /\
  flag_set f FLAG_CARRY = false /\
  flag_set f FLAG_OVERFLOW = false.
Proof.
  intros Hr. cbv zeta. unfold ALU.set_negative_flag, ALU.set_zero_flag.
  rewrite (to_word_small r Hr), (sign_test r Hr).
  cmp_cases; split_all; reflexivity.
Qed.

(** X7: the logical family on words.  [and_op], [or_op] and [xor_op]
    return the bitwise function of the operands and [not_op] the
    complement 0xFFFF - a, so that complementing twice gives the operand
    back; each of the four sets Z and N from its result and leaves C and
    V clear. *)
Theorem logical_meaning : forall a b flags,
  0 <= a < 65536 -> 0 <= b < 65536 ->
  fst (ALU.and_op a b flags) = Z.land a b /\
  fst (ALU.or_op a b flags) = Z.lor a b /\
  fst (ALU.xor_op a b flags) = Z.lxor a b /\
  fst (ALU.not_op a flags) = 65535 - a /\
  fst (ALU.not_op (fst (ALU.not_op a flags)) flags) = a /\
  (forall op,
     In op [ALU_and_op; ALU_or_op; ALU_xor_op; ALU_not_op] ->
     let r := fst (alu_apply op a b flags) in
     let f := snd (alu_apply op a b flags) in
     flag_set f FLAG_ZERO = (r =? 0) /\
     flag_set f FLAG_NEGATIVE = (32768 <=? r) /\
     flag_set f FLAG_CARRY = false /\
     flag_set f FLAG_OVERFLOW = false).
Proof.
  intros a b flags Ha Hb.
  assert (Hnot : forall x fl, 0 <= x < 65536 ->
                 fst (ALU.not_op x fl) = 65535 - x).
  { intros x fl Hx. unfold ALU.not_op. cbn [fst].
    rewrite (to_word_small x Hx). apply lnot_as_word, Hx. }
  split_all.
  - unfold ALU.and_op. cbn [fst].
    rewrite (to_word_small a Ha), (to_word_small b Hb).
    apply land_is_word; assumption.
  - unfold ALU.or_op. cbn [fst].
    rewrite (to_word_small a Ha), (to_word_small b Hb).
    apply lor_is_word; assumption.
  - unfold ALU.xor_op. cbn [fst].
    rewrite (to_word_small a Ha), (to_word_small b Hb).
    apply lxor_is_word; assumption.
  - apply Hnot, Ha.
  - rewrite (Hnot a flags Ha), Hnot by lia. lia.
  - intros op Hop. cbv zeta.
    assert (Hshape : exists r, 0 <= r < 65536 /\
              alu_apply op a b flags =
                (r, ALU.set_negative_flag r (ALU.set_zero_flag r 0))).
    { cbn [In] in Hop.
      destruct Hop as [<-|[<-|[<-|[<-|[]]]]]; cbn [alu_apply];
        unfold ALU.and_op, ALU.or_op, ALU.xor_op, ALU.not_op, ALU.clear_flags;
        eexists; (split; [|reflexivity]); apply to_word_range. }
    destruct Hshape as (r & Hr & ->). cbn [fst snd].
    apply (Z_N_flags_of_word r Hr).
Qed.

Lemma logical_meaning_witness :
  0 <= 0x00F0 < 65536 /\ 0 <= 0x0F0F < 65536 /\
  fst (ALU.xor_op 0x00F0 0x0F0F 0) = 0x0FFF /\
  fst (ALU.not_op 0x00F0 0) = 0xFF0F.
Proof.
  split; [lia|]. split; [lia|].
  destruct (logical_meaning 0x00F0 0x0F0F 0 ltac:(lia) ltac:(lia))
    as (_ & _ & Hxor & Hnot & _).
  split; [exact Hxor | exact Hnot].
Defined.

Lemma flags_with_carry (r : Z) (carry : bool) :
  0 <= r < 65536 ->
  let f := ALU.set_negative_flag r
             (ALU.set_zero_flag r
                (if carry then Z.lor 0 FLAG_CARRY else 0)) in
  flag_set f FLAG_CARRY = carry /\
  flag_set f FLAG_ZERO = (r =? 0) /\
  flag_set f FLAG_NEGATIVE = (32768 <=? r) /\
  flag_set f FLAG_OVERFLOW = false.
Proof.
  intros Hr. cbv zeta. unfold ALU.set_negative_flag, ALU.set_zero_flag.
  rewrite (to_word_small r Hr), (sign_test r Hr).
  destruct carry; cmp_cases; split_all; reflexivity.
Qed.

(** X8: the left shift on words, for every count.  The result is
    a * 2^k modulo 2^16 (zero from k = 16 on); C is bit 16 - k of the
    operand, the last bit shifted out, for counts up to 16 and clear
    beyond; Z and N describe the result and V is clear. *)
Theorem shl_meaning : forall a k flags,
  0 <= a < 65536 -> 0 <= k < 65536 ->
  let r := fst (ALU.shl a k flags) in
  let f := snd (ALU.shl a k flags) in
  r = (a * 2 ^ k) mod 65536 /\
  flag_set f FLAG_CARRY = (k <=? 16) && Z.testbit a (16 - k) /\
  flag_set f FLAG_ZERO = (r =? 0) /\
  flag_set f FLAG_NEGATIVE = (32768 <=? r) /\
  flag_set f FLAG_OVERFLOW = false.
Proof.
  intros a k flags Ha Hk. cbv zeta. unfold ALU.shl, ALU.clear_flags.
  rewrite (to_word_small a Ha), (to_word_small k Hk), Z.geb_leb.
  destruct (Z.leb_spec 16 k) as [Hbig|Hsmall].
  - cbn [fst snd].
    assert (Hzero : (a * 2 ^ k) mod 65536 = 0).
    { replace k with (16 + (k - 16)) by lia.
      rewrite Z.pow_add_r by lia. change (2 ^ 16) with 65536.
      replace (a * (65536 * 2 ^ (k - 16))) with (a * 2 ^ (k - 16) * 65536)
        by lia.
      apply Z_mod_mult. }
    rewrite Hzero.
    change 0x0001 with (2 ^ 0). rewrite nonzero_land_pow2 by lia.
    destruct (Z.eqb_spec k 16) as [->|Hne].
    + change (16 - 16) with 0. destruct (Z.testbit a 0); split_all; reflexivity.
    + destruct (Z.leb_spec k 16); [lia|]. split_all; reflexivity.
  - destruct (Z.leb_spec k 16); [|lia].
    rewrite Z.shiftl_1_l, nonzero_land_pow2 by lia.
    rewrite Z.shiftl_mul_pow2 by lia. cbn [fst snd andb].
    assert (Hcarry : (k >? 0) && Z.testbit a (16 - k) = Z.testbit a (16 - k)).
    { rewrite Z.gtb_ltb. destruct (Z.ltb_spec 0 k); [reflexivity|].
      replace k with 0 by lia. rewrite (word_high_bits a (16 - 0)) by lia.
      reflexivity. }
    rewrite Hcarry.
    change ((a * 2 ^ k) mod 65536) with (to_word (a * 2 ^ k)).
    split; [reflexivity|].
    apply (flags_with_carry _ _ (to_word_range (a * 2 ^ k))).
Qed.

Lemma shl_meaning_witness :
  0 <= 0x8001 < 65536 /\ 0 <= 1 < 65536 /\
  fst (ALU.shl 0x8001 1 0) = 0x0002 /\
  flag_set (snd (ALU.shl 0x8001 1 0)) FLAG_CARRY = true.
Proof.
  split; [lia|]. split; [lia|].
  destruct (shl_meaning 0x8001 1 0 ltac:(lia) ltac:(lia)) as (Hr & Hc & _).
  split; [exact Hr | exact Hc].
Defined.

(** X9: the right shift on words, for every count.  The result is the
    quotient a / 2^k (zero from k = 16 on); C is bit k - 1 of the operand,
    the last bit shifted out, for counts from 1 to 16 and clear otherwise;
    Z and N describe the result, N being clear for every count but 0, and
    V is clear. *)
Theorem shr_meaning : forall a k flags,
  0 <= a < 65536 -> 0 <= k < 65536 ->
  let r := fst (ALU.shr a k flags) in
  let f := snd (ALU.shr a k flags) in
  r = a / 2 ^ k /\
  flag_set f FLAG_CARRY = (k <=? 16) && Z.testbit a (k - 1) /\
  flag_set f FLAG_ZERO = (r =? 0) /\
  flag_set f FLAG_NEGATIVE = (32768 <=? r) /\
  (1 <= k -> flag_set f FLAG_NEGATIVE = false) /\
  flag_set f FLAG_OVERFLOW = false.
Proof.
  intros a k flags Ha Hk. cbv zeta. unfold ALU.shr, ALU.clear_flags.
  rewrite (to_word_small a Ha), (to_word_small k Hk), Z.geb_leb.
  assert (Hpow : 0 < 2 ^ k) by (apply Z.pow_pos_nonneg; lia).
  destruct (Z.leb_spec 16 k) as [Hbig|Hsmall].
  - cbn [fst snd].
    assert (Hzero : a / 2 ^ k = 0).
    { apply Z.div_small.
      assert (2 ^ 16 <= 2 ^ k) by (apply Z.pow_le_mono_r; lia).
      change (2 ^ 16) with 65536 in *. lia. }
    rewrite Hzero.
    change 0x8000 with (2 ^ 15). rewrite nonzero_land_pow2 by lia.
    destruct (Z.eqb_spec k 16) as [->|Hne].
    + change (16 - 1) with 15.
      destruct (Z.testbit a 15); split_all; reflexivity.
    + destruct (Z.leb_spec k 16); [lia|]. split_all; reflexivity.
  - destruct (Z.leb_spec k 16); [|lia].
    rewrite Z.shiftr_div_pow2 by lia. cbn [fst snd andb].
    assert (Hq : 0 <= a / 2 ^ k < 65536).
    { split; [apply Z.div_pos; lia|].
      apply Z.div_lt_upper_bound; nia. }
    rewrite (to_word_small _ Hq).
    assert (Hcarry :
      (k >? 0) && nonzero (Z.land a (Z.shiftl 1 (k - 1))) =
      Z.testbit a (k - 1)).
    { rewrite Z.gtb_ltb. destruct (Z.ltb_spec 0 k).
      - rewrite Z.shiftl_1_l, nonzero_land_pow2 by lia. reflexivity.
      - rewrite (Z.testbit_neg_r a (k - 1)) by lia. reflexivity. }
    rewrite Hcarry.
    destruct (flags_with_carry (a / 2 ^ k) (Z.testbit a (k - 1)) Hq)
      as (Hc & Hz & Hn & Hv).
    split_all; try assumption; try reflexivity.
    intros Hk1. rewrite Hn.
    assert (a / 2 ^ k < 32768).
    { apply Z.div_lt_upper_bound; [lia|].
      assert (2 ^ 1 <= 2 ^ k) by (apply Z.pow_le_mono_r; lia).
      change (2 ^ 1) with 2 in *. nia. }
    destruct (Z.leb_spec 32768 (a / 2 ^ k)); [lia | reflexivity].
Qed.

Lemma shr_meaning_witness :
  0 <= 0x8001 < 65536 /\ 0 <= 1 < 65536 /\
  fst (ALU.shr 0x8001 1 0) = 0x4000 /\
  flag_set (snd (ALU.shr 0x8001 1 0)) FLAG_CARRY = true.
Proof.
  split; [lia|]. split; [lia|].
  destruct (shr_meaning 0x8001 1 0 ltac:(lia) ltac:(lia)) as (Hr & Hc & _).
  split; [exact Hr | exact Hc].
Defined.

(** ** What all ALU operations have in common *)

Lemma flags_of_result (r f0 : Z) :
  0 <= r < 65536 -> carry_overflow_only f0 ->
  let f := ALU.set_negative_flag r (ALU.set_zero_flag r f0) in
  flag_set f FLAG_ZERO = (r =? 0) /\
  flag_set f FLAG_NEGATIVE = (32768 <=? r) /\
  0 <= f < 16.
Proof.
  intros Hr Hf0. cbv zeta. unfold ALU.set_negative_flag, ALU.set_zero_flag.
  rewrite (to_word_small r Hr), (sign_test r Hr).
  destruct Hf0 as [->|[->|[->| ->]]];
    cmp_cases; split_all; first [reflexivity | discriminate].
Qed.

(** Decide the conditions that choose the flag bits. *)
Ltac flag_cases :=
  repeat match goal with
         | |- context [if ?c then _ else _] => destruct c
         end;
  unfold carry_overflow_only; cbn; tauto.

(** Every outcome of the ALU has one of two shapes: the sentinel of a
    division by zero, or a word with the Z and N flags derived from it on
    top of a flag word that holds at most C and V ([compare] then returns
    0 in place of the word). *)
Lemma alu_shape (op : alu_operation) (a b flags : Z) :
  (op = ALU_div /\ to_word b = 0 /\
   alu_apply op a b flags = (0xFFFF, FLAG_OVERFLOW)) \/
  (exists r f0,
     alu_apply op a b flags =
       (match op with ALU_compare => 0 | _ => r end,
        ALU.set_negative_flag r (ALU.set_zero_flag r f0)) /\
     0 <= r < 65536 /\ carry_overflow_only f0 /\
     (op = ALU_div -> to_word b <> 0)).
Proof.
  destruct op; cbn [alu_apply].
  - right. unfold ALU.add, ALU.clear_flags. cbv zeta.
    eexists. eexists. split; [reflexivity|].
    split; [apply to_word_range|]. split; [flag_cases | discriminate].
  - right. unfold ALU.sub, ALU.clear_flags. cbv zeta.
    eexists. eexists. split; [reflexivity|].
    split; [apply to_word_range|]. split; [flag_cases | discriminate].
  - right. unfold ALU.mul, ALU.clear_flags. cbv zeta.
    eexists. eexists. split; [reflexivity|].
    split; [apply to_word_range|]. split; [flag_cases | discriminate].
  - unfold ALU.div, ALU.clear_flags. cbv zeta.
    destruct (Z.eqb_spec (to_word b) 0) as [Hzero|Hnz].
    + left. split_all; [reflexivity | exact Hzero | reflexivity].
    + right. eexists. exists 0. split; [reflexivity|].
      split; [apply to_word_range|]. split; [left; reflexivity|].
      intros _. exact Hnz.
  - right. unfold ALU.and_op, ALU.clear_flags. cbv zeta.
    eexists. exists 0. split; [reflexivity|].
    split; [apply to_word_range|]. split; [left; reflexivity | discriminate].
  - right. unfold ALU.or_op, ALU.clear_flags. cbv zeta.
    eexists. exists 0. split; [reflexivity|].
    split; [apply to_word_range|]. split; [left; reflexivity | discriminate].
  - right. unfold ALU.xor_op, ALU.clear_flags. cbv zeta.
    eexists. exists 0. split; [reflexivity|].
    split; [apply to_word_range|]. split; [left; reflexivity | discriminate].
  - right. unfold ALU.not_op, ALU.clear_flags. cbv zeta.
    eexists. exists 0. split; [reflexivity|].
    split; [apply to_word_range|]. split; [left; reflexivity | discriminate].
  - right. unfold ALU.shl, ALU.clear_flags. cbv zeta.
    destruct (to_word b >=? 16).
    + exists 0. eexists. split; [reflexivity|].
      split; [lia|]. split; [flag_cases | discriminate].
    + eexists. eexists. split; [reflexivity|].
      split; [apply to_word_range|]. split; [flag_cases | discriminate].
  - right. unfold ALU.shr, ALU.clear_flags. cbv zeta.
    destruct (to_word b >=? 16).
    + exists 0. eexists. split; [reflexivity|].
      split; [lia|]. split; [flag_cases | discriminate].
    + eexists. eexists. split; [reflexivity|].
      split; [apply to_word_range|]. split; [flag_cases | discriminate].
  - right. unfold ALU.compare, ALU.sub, ALU.clear_flags. cbv zeta.
    cbn [snd].
    eexists. eexists. split; [reflexivity|].
    split; [apply to_word_range|]. split; [flag_cases | discriminate].
Qed.

(** X10: whatever the operation, the operands and the incoming flags,
    the ALU returns a 16-bit word and a flag word that uses only the four
    defined bits (below 16). *)
Theorem alu_output_range : forall op a b flags,
  0 <= fst (alu_apply op a b flags) < 65536 /\
  0 <= snd (alu_apply op a b flags) < 16.
Proof.
  intros op a b flags.
  destruct (alu_shape op a b flags)
    as [(_ & _ & ->) | (r & f0 & -> & Hr & Hf0 & _)].
  - cbn [fst snd]. unfold FLAG_OVERFLOW. lia.
  - cbn [fst snd]. split.
    + destruct op; lia.
    + apply (flags_of_result r f0 Hr Hf0).
Qed.

(** X11: the Z and N flags describe the returned word.  For every
    operation other than [compare], and for [div] when the divisor is not
    zero, Z is set exactly when the result is 0 and N exactly when bit 15
    of the result is set. *)
Theorem alu_Z_N_describe_result : forall op a b flags,
  op <> ALU_compare ->
  (op = ALU_div -> to_word b <> 0) ->
  let r := fst (alu_apply op a b flags) in
  let f := snd (alu_apply op a b flags) in
  flag_set f FLAG_ZERO = (r =? 0) /\
  flag_set f FLAG_NEGATIVE = (32768 <=? r).
Proof.
  intros op a b flags Hcmp Hdiv. cbv zeta.
  destruct (alu_shape op a b flags)
    as [(Hop & Hzero & _) | (r & f0 & -> & Hr & Hf0 & _)].
  - destruct (Hdiv Hop Hzero).
  - cbn [fst snd].
    replace (match op with ALU_compare => 0 | _ => r end) with r
      by (destruct op; first [reflexivity | destruct (Hcmp eq_refl)]).
    destruct (flags_of_result r f0 Hr Hf0) as (Hz & Hn & _).
    split; assumption.
Qed.

Lemma alu_Z_N_describe_result_witness :
  ALU_sub <> ALU_compare /\
  (ALU_sub = ALU_div -> to_word 7 <> 0) /\
  flag_set (snd (ALU.sub 7 7 0)) FLAG_ZERO = true /\
  flag_set (snd (ALU.sub 7 7 0)) FLAG_NEGATIVE = false.
Proof.
  assert (H1 : ALU_sub <> ALU_compare) by discriminate.
  assert (H2 : ALU_sub = ALU_div -> to_word 7 <> 0) by discriminate.
  split; [exact H1|]. split; [exact H2|].
  exact (alu_Z_N_describe_result ALU_sub 7 7 0 H1 H2).
Defined.

(** ** Word stores, the byte invariant and program loading *)

(** X12: the whole effect of a word store.  Away from the console port the
    word is read back as a word; no cell other than the two of the word
    changes; and the console receives exactly the byte that was aimed at
    the port, the low byte when the address is 0xF000, the high byte when
    the next address is, and nothing otherwise. *)
Theorem word_store_effect : forall m A W,
  0 <= A < 65536 -> 0 <= W < 65536 ->
  (A <> 0xF000 -> to_word (A + 1) <> 0xF000 ->
   read_word (write_word m A W) A = W) /\
  (forall a, to_word a <> A -> to_word a <> to_word (A + 1) ->
   read_byte (write_word m A W) a = read_byte m a) /\
  console (write_word m A W) =
    console m ++
    (if A =? 0xF000 then [Z.land W 0xFF]
     else if to_word (A + 1) =? 0xF000 then [Z.land (Z.shiftr W 8) 0xFF]
     else []).
Proof.
  intros m A W HA HW. split_all.
  - intros Hlo Hhi.
    rewrite read_word_write_word_same.
    + apply to_word_small, HW.
    + rewrite (to_word_small A HA). exact Hlo.
    + rewrite (to_word_small A HA). exact Hhi.
  - intros a Ha Ha1. unfold write_word. rewrite (to_word_small A HA).
    rewrite read_byte_write_byte_other by exact Ha1.
    apply read_byte_write_byte_other. rewrite (to_word_small A HA). exact Ha.
  - unfold write_word.
    rewrite (to_word_small A HA), (to_word_small W HW).
    rewrite !console_write_byte, (to_word_small A HA).
    rewrite !(to_byte_small _ (low_byte_is_byte _)).
    unfold IO_CONSOLE_OUT.
    destruct (Z.eqb_spec A 0xF000) as [->|Hne].
    + change (to_word (0xF000 + 1) =? 0xF000) with false.
      rewrite <- app_assoc. reflexivity.
    + rewrite <- app_assoc. reflexivity.
Qed.

Lemma word_store_effect_witness :
  0 <= 0xEFFF < 65536 /\ 0 <= 0x1234 < 65536 /\
  console (write_word Memory_new 0xEFFF 0x1234) = [0x12] /\
  read_byte (write_word Memory_new 0xEFFF 0x1234) 0x0000 = 0.
Proof.
  split; [lia|]. split; [lia|].
  destruct (word_store_effect Memory_new 0xEFFF 0x1234 ltac:(lia) ltac:(lia))
    as (_ & Hframe & Hconsole).
  split; [exact Hconsole|].
  apply (Hframe 0x0000); discriminate.
Defined.

Lemma store_bytes_spec (bytes : list Z) :
  forall d s a,
  store_bytes d bytes s a =
    if (s <=? a) && (a <? s + Z.of_nat (length bytes))
    then to_byte (nth (Z.to_nat (a - s)) bytes 0)
    else d a.
Proof.
  induction bytes as [|b rest IH]; intros d s a; cbn [store_bytes length nth].
  - destruct (Z.leb_spec s a); destruct (Z.ltb_spec a (s + Z.of_nat 0));
      cbn [andb]; first [reflexivity | lia].
  - rewrite IH. rewrite Nat2Z.inj_succ.
    destruct (Z.eqb_spec a s) as [->|Hne].
    + destruct (Z.leb_spec (s + 1) s); [lia|]. cbn [andb].
      destruct (Z.leb_spec s s); [|lia].
      destruct (Z.ltb_spec s (s + Z.succ (Z.of_nat (length rest)))); [|lia].
      cbn [andb]. replace (s - s) with 0 by lia. reflexivity.
    + destruct (Z.leb_spec (s + 1) a) as [Hge|Hlt].
      * destruct (Z.leb_spec s a); [|lia].
        replace (a <? s + Z.succ (Z.of_nat (length rest)))
          with (a <? s + 1 + Z.of_nat (length rest))
          by (f_equal; lia).
        destruct (a <? s + 1 + Z.of_nat (length rest)); cbn [andb];
          [|reflexivity].
        replace (Z.to_nat (a - s)) with (S (Z.to_nat (a - (s + 1))))
          by lia.
        reflexivity.
      * cbn [andb]. destruct (Z.leb_spec s a); [lia|]. reflexivity.
Qed.

Lemma size_sum_fits (start size : Z) :
  0 <= start < 65536 -> 0 <= size < 2 ^ 63 ->
  to_size_t (start + size) = start + size.
Proof.
  intros Hstart Hsize. unfold to_size_t. apply Z.mod_small.
  change (2 ^ 63) with 9223372036854775808 in Hsize. lia.
Qed.

(** The store after a whole load is the one [load_program] gives for the
    contents of a file that is read to its end. *)
Lemma load_program_of_whole_file
    (fs : String.string -> option ifstream) (m : Memory)
    (filename : String.string) (bytes : list Z) (start : Z) :
  fs filename = Some (mk_ifstream (Z.of_nat (length bytes)) bytes) ->
  Z.of_nat (length bytes) < 2 ^ 63 ->
  Memory_load_program fs m filename start =
    match load_program m bytes start with
    | Some m' =>
        (true, m', loaded (Z.of_nat (length bytes)) filename (to_word start))
    | None => (false, m, program_too_large)
    end.
Proof.
  intros Hfile Hsize. unfold Memory_load_program, load_program.
  rewrite Hfile. cbn [tellg read]. cbv zeta.
  rewrite (size_sum_fits (to_word start))
    by first [apply to_word_range | lia].
  destruct (to_word start + Z.of_nat (length bytes) >? MEMORY_SIZE);
    [reflexivity|].
  unfold read_succeeds. cbn [tellg read]. rewrite Z.eqb_refl. reflexivity.
Qed.

(** X13: [Memory::load_program], whole.  A file that cannot be opened and
    a file whose size passes the end of the 64 KiB store are refused with
    the memory untouched.  Otherwise the characters the read delivers are
    stored from the start address on, each read back at its place, and
    every other cell is as before; the call returns true exactly when the
    file fits and the read delivered all of it, so a read that fails part
    way returns false with the delivered part already in the store.  The
    image is copied directly: nothing goes through the console port, a
    byte loaded at 0xF000 is stored there.  The one line the call writes
    to standard output is the "Loaded" line, with the size, the name and
    the start address, and it is written exactly when the call returns
    true. *)
Theorem load_program_effect : forall fs m filename start,
  0 <= start < 65536 ->
  let r := Memory_load_program fs m filename start in
  (fs filename = None -> r = (false, m, could_not_open filename)) /\
  (forall file,
     fs filename = Some file ->
     0 <= tellg file < 2 ^ 63 ->
     Z.of_nat (length (read file)) <= tellg file ->
     (65536 < start + tellg file -> r = (false, m, program_too_large)) /\
     (load_ok r = true <->
      start + tellg file <= 65536 /\
      Z.of_nat (length (read file)) = tellg file) /\
     (start + tellg file <= 65536 ->
      load_report r =
        (if read_succeeds file then loaded (tellg file) filename start
         else failed_to_read) /\
      console (load_memory r) = console m /\
      (forall i, 0 <= i < Z.of_nat (length (read file)) ->
         read_byte (load_memory r) (start + i) =
           to_byte (nth (Z.to_nat i) (read file) 0)) /\
      (forall a, 0 <= a < 65536 ->
         a < start \/ start + Z.of_nat (length (read file)) <= a ->
         read_byte (load_memory r) a = read_byte m a))) /\
  on_standard_output (load_report r) = load_ok r.
Proof.
  intros fs m filename start Hstart.
  unfold Memory_load_program, MEMORY_SIZE, load_ok, load_memory, load_report.
  rewrite (to_word_small start Hstart). cbv zeta.
  destruct (fs filename) as [file|].
  - split; [intros Hnone; discriminate Hnone|].
    split.
    + intros f Hf Hsize Hread. injection Hf as <-.
      rewrite (size_sum_fits start (tellg file) Hstart Hsize), Z.gtb_ltb.
      unfold read_succeeds.
      destruct (Z.ltb_spec 65536 (start + tellg file)) as [Hbig|Hfit].
      * split; [reflexivity|]. cbn [fst snd].
        split; [split; [intros Hx; discriminate Hx | lia] | lia].
      * split; [lia|].
        destruct (Z.eqb_spec (Z.of_nat (length (read file))) (tellg file))
          as [Hall|Hpart]; cbn [negb fst snd].
        -- split; [split; [intros _; split; [exact Hfit | exact Hall]
                          | reflexivity]|].
           intros _. split; [reflexivity|]. split; [reflexivity|].
           split.
           ++ intros i Hi. unfold read_byte. cbn [data].
              rewrite (to_word_small (start + i)) by lia.
              rewrite store_bytes_spec.
              destruct (Z.leb_spec start (start + i)); [|lia].
              destruct (Z.ltb_spec (start + i)
                          (start + Z.of_nat (length (read file)))); [|lia].
              cbn [andb]. replace (start + i - start) with i by lia.
              reflexivity.
           ++ intros a Ha Hout. unfold read_byte. cbn [data].
              rewrite (to_word_small a Ha), store_bytes_spec.
              destruct (Z.leb_spec start a);
                destruct (Z.ltb_spec a (start + Z.of_nat (length (read file))));
                cbn [andb]; first [reflexivity | lia].
        -- split; [split; [intros Hx; discriminate Hx | intros [_ Hx]; lia]|].
           intros _. split; [reflexivity|]. split; [reflexivity|].
           split.
           ++ intros i Hi. unfold read_byte. cbn [data].
              rewrite (to_word_small (start + i)) by lia.
              rewrite store_bytes_spec.
              destruct (Z.leb_spec start (start + i)); [|lia].
              destruct (Z.ltb_spec (start + i)
                          (start + Z.of_nat (length (read file)))); [|lia].
              cbn [andb]. replace (start + i - start) with i by lia.
              reflexivity.
           ++ intros a Ha Hout. unfold read_byte. cbn [data].
              rewrite (to_word_small a Ha), store_bytes_spec.
              destruct (Z.leb_spec start a);
                destruct (Z.ltb_spec a (start + Z.of_nat (length (read file))));
                cbn [andb]; first [reflexivity | lia].
    + destruct (to_size_t (start + tellg file) >? 65536); [reflexivity|].
      destruct (read_succeeds file); reflexivity.
  - split; [reflexivity|]. split; [|reflexivity].
    intros f Hf. discriminate Hf.
Qed.

(** Two loads at 0xF000 into a fresh memory.  The two-byte file "prog.bin"
    is loaded: the call returns true, the line names 2 bytes at 0xF000,
    the console port has printed nothing and the bytes are in the store.
    A file of reported size 4 whose read stops after "AB" makes the call
    return false, print the read error, and leave "AB" in the store. *)
Lemma load_program_effect_witness :
  0 <= 0xF000 < 65536 /\
  (let r := Memory_load_program
              (one_file "prog.bin" (mk_ifstream 2 [0x41; 0x42]))
              Memory_new "prog.bin" 0xF000 in
   load_ok r = true /\
   load_report r = loaded 2 "prog.bin" 0xF000 /\
   console (load_memory r) = [] /\
   read_byte (load_memory r) 0xF000 = 0x41 /\
   read_byte (load_memory r) 0xF001 = 0x42 /\
   read_byte (load_memory r) 0xF002 = 0x00) /\
  (let r := Memory_load_program
              (one_file "cut.bin" (mk_ifstream 4 [0x41; 0x42]))
              Memory_new "cut.bin" 0xF000 in
   load_ok r <> true /\
   load_report r = failed_to_read /\
   read_byte (load_memory r) 0xF000 = 0x41 /\
   read_byte (load_memory r) 0xF001 = 0x42).
Proof.
  split; [lia|]. split.
  - destruct (load_program_effect
                (one_file "prog.bin" (mk_ifstream 2 [0x41; 0x42]))
                Memory_new "prog.bin" 0xF000 ltac:(lia))
      as (_ & Hfile & _).
    destruct (Hfile (mk_ifstream 2 [0x41; 0x42]) eq_refl
                ltac:(cbn; lia) ltac:(cbn; lia))
      as (_ & Hok & Hfit).
    destruct (Hfit ltac:(cbn; lia)) as (Hreport & Hconsole & Hbytes & Hframe).
    cbv zeta.
    split; [apply Hok; cbn; lia|].
    split; [exact Hreport|].
    split; [exact Hconsole|].
    split; [exact (Hbytes 0 ltac:(cbn; lia))|].
    split; [exact (Hbytes 1 ltac:(cbn; lia))|].
    apply (Hframe 0xF002); cbn; lia.
  - destruct (load_program_effect
                (one_file "cut.bin" (mk_ifstream 4 [0x41; 0x42]))
                Memory_new "cut.bin" 0xF000 ltac:(lia))
      as (_ & Hfile & _).
    destruct (Hfile (mk_ifstream 4 [0x41; 0x42]) eq_refl
                ltac:(cbn; lia) ltac:(cbn; lia))
      as (_ & Hok & Hfit).
    destruct (Hfit ltac:(cbn; lia)) as (Hreport & _ & Hbytes & _).
    cbv zeta.
    split; [intros Hx; apply Hok in Hx; cbn in Hx; lia|].
    split; [exact Hreport|].
    split; [exact (Hbytes 0 ltac:(cbn; lia)) | exact (Hbytes 1 ltac:(cbn; lia))].
Defined.

Lemma word_of_two_bytes (lo hi : Z) :
  0 <= lo < 256 -> 0 <= hi < 256 ->
  to_word (Z.lor (Z.shiftl hi 8) lo) = lo + 256 * hi.
Proof.
  intros Hlo Hhi. rewrite Z.lor_comm.
  rewrite (lor_above_field lo hi 8) by (cbn; lia).
  change (2 ^ 8) with 256. rewrite to_word_small by lia. lia.
Qed.

Lemma bytes_ok_write_byte (m : Memory) (a v : Z) :
  bytes_ok m -> bytes_ok (write_byte m a v).
Proof.
  intros Hm x. unfold write_byte.
  destruct (to_word a =? IO_CONSOLE_OUT); cbn [data].
  - apply Hm.
  - destruct (x =? to_word a); [apply to_byte_range | apply Hm].
Qed.

Lemma bytes_ok_write_word (m : Memory) (a w : Z) :
  bytes_ok m -> bytes_ok (write_word m a w).
Proof.
  intros Hm. unfold write_word. apply bytes_ok_write_byte, bytes_ok_write_byte.
  exact Hm.
Qed.

(** X14: the backing store keeps holding bytes, and a word read is the
    little-endian value of two of them.  Starting from a store whose cells
    are bytes, every byte write, word write, clearing and successful
    program load leaves a store whose cells are bytes; on such a store a
    word read at an address is the byte there plus 256 times the byte at
    the next address (modulo 2^16). *)
Theorem memory_holds_bytes : forall m,
  bytes_ok m ->
  (forall a v, bytes_ok (write_byte m a v)) /\
  (forall a w, bytes_ok (write_word m a w)) /\
  bytes_ok (clear m) /\
  (forall bytes start m',
     load_program m bytes start = Some m' -> bytes_ok m') /\
  (forall a, 0 <= read_byte m a < 256) /\
  (forall a, read_word m a = read_byte m a + 256 * read_byte m (a + 1)).
Proof.
  intros m Hm. split_all.
  - intros a v. apply bytes_ok_write_byte, Hm.
  - intros a w. apply bytes_ok_write_word, Hm.
  - intros x. cbn. lia.
  - intros bytes start m' Hload. unfold load_program in Hload.
    destruct (to_word start + Z.of_nat (length bytes) >? MEMORY_SIZE);
      [discriminate Hload|].
    injection Hload as <-. intros x. cbn [data]. rewrite store_bytes_spec.
    destruct ((to_word start <=? x) &&
              (x <? to_word start + Z.of_nat (length bytes)));
      [apply to_byte_range | apply Hm].
  - intros a. apply Hm.
  - intros a. unfold read_word.
    rewrite read_byte_to_word.
    replace (read_byte m (to_word a + 1)) with (read_byte m (a + 1)).
    + apply word_of_two_bytes; apply Hm.
    + unfold read_byte, to_word. f_equal.
      rewrite Zplus_mod_idemp_l. reflexivity.
Qed.

Lemma memory_holds_bytes_witness :
  bytes_ok Memory_new /\
  bytes_ok (write_word Memory_new 0x8000 0x1234) /\
  read_word Memory_new 0x8000 =
    read_byte Memory_new 0x8000 + 256 * read_byte Memory_new (0x8000 + 1).
Proof.
  assert (Hnew : bytes_ok Memory_new) by (intros x; cbn [data Memory_new]; lia).
  split; [exact Hnew|].
  destruct (memory_holds_bytes Memory_new Hnew) as (_ & Hw & _ & _ & _ & Hr).
  split; [apply Hw | apply Hr].
Defined.

(** ** Invariants of the fetch-decode-execute step *)

Lemma alu_flags_small (op : alu_operation) (a b flags : Z) :
  0 <= snd (alu_apply op a b flags) < 16.
Proof.
  destruct (alu_shape op a b flags)
    as [(_ & _ & ->) | (r & f0 & -> & Hr & Hf0 & _)].
  - cbn [snd]. unfold FLAG_OVERFLOW. lia.
  - cbn [snd]. apply (flags_of_result r f0 Hr Hf0).
Qed.

Lemma reg_write_ok (regs regs' : Z -> Z) (i v : Z) :
  (forall j, 0 <= j < NUM_REGISTERS -> 0 <= regs j < 65536) ->
  reg_write regs i v = Some regs' ->
  forall j, 0 <= j < NUM_REGISTERS -> 0 <= regs' j < 65536.
Proof.
  intros Hregs Hw j Hj. unfold reg_write in Hw.
  destruct ((0 <=? i) && (i <? NUM_REGISTERS)); [|discriminate Hw].
  injection Hw as <-.
  destruct (j =? i); [apply to_word_range | apply Hregs, Hj].
Qed.

(** Take apart a successful run of [execute_instruction]: name the
    outcome of every step that can fail and of every test. *)
Ltac exec_inv H :=
  unfold commit, set_reg, push, pop in H;
  repeat (cbv beta iota zeta in H; cbn [bind] in H;
    match type of H with
    | bind ?x _ = Some _ =>
        let E := fresh "E" in
        destruct x eqn:E; [|discriminate H]
    | (if ?b then _ else _) = Some _ => destruct b
    end);
  cbv beta iota zeta in H; cbn [bind] in H;
  injection H as <- <-.

Ltac cpu_fields :=
  unfold halt, with_pc, with_sp, with_flags, with_halted, with_registers,
    with_instruction_count;
  cbn [pc sp flags registers halted debug_mode instruction_count].

(** The flag word an ALU operation returns is small. *)
Ltac alu_flags :=
  first
    [ apply (alu_flags_small ALU_add) | apply (alu_flags_small ALU_sub)
    | apply (alu_flags_small ALU_mul) | apply (alu_flags_small ALU_div)
    | apply (alu_flags_small ALU_and_op) | apply (alu_flags_small ALU_or_op)
    | apply (alu_flags_small ALU_xor_op)
    | apply (alu_flags_small ALU_not_op _ 0)
    | apply (alu_flags_small ALU_shl) | apply (alu_flags_small ALU_shr)
    | apply (alu_flags_small ALU_compare) ].

Lemma execute_instruction_ok (code : Opcode -> Z) (c c' : CPU) (m m' : Memory) (instr : Z) :
  cpu_ok c -> bytes_ok m ->
  execute_instruction code c m instr = Some (c', m') ->
  cpu_ok c' /\ bytes_ok m'.
Proof.
  intros (Hpc & Hsp & Hfl & Hregs) Hm Hexec.
  unfold execute_instruction in Hexec. cbv zeta in Hexec.
  destruct (decode_opcode code _) as [o|]; [destruct o|];
    exec_inv Hexec.
  all: split; [| repeat apply bytes_ok_write_word; exact Hm].
  all: unfold cpu_ok; cpu_fields.
  all: refine (conj _ (conj _ (conj _ _)));
    try apply to_word_range; try apply read_word_range; try assumption;
    try alu_flags.
  all: try (eapply reg_write_ok; [|eassumption]; cpu_fields; assumption).
Qed.

Lemma step_ok (code : Opcode -> Z) (c c' : CPU) (m m' : Memory) :
  cpu_ok c -> bytes_ok m ->
  step code c m = Some (c', m') ->
  cpu_ok c' /\ bytes_ok m'.
Proof.
  intros Hc Hm Hstep. unfold step, fetch_decode_execute in Hstep.
  destruct (halted c).
  - injection Hstep as <- <-. split; assumption.
  - cbv zeta in Hstep.
    destruct (execute_instruction code _ m _) as [[c1 m1]|] eqn:Hexec;
      [|discriminate Hstep].
    cbn [bind fst snd] in Hstep. injection Hstep as <- <-.
    apply execute_instruction_ok in Hexec; [|
      destruct Hc as (Hpc & Hsp & Hfl & Hregs); unfold cpu_ok; cpu_fields;
      refine (conj _ (conj _ (conj _ _))); try assumption;
      apply to_word_range | exact Hm].
    destruct Hexec as [(Hpc & Hsp & Hfl & Hregs) Hm1].
    split; [|exact Hm1]. unfold cpu_ok; cpu_fields.
    refine (conj _ (conj _ (conj _ _))); assumption.
Qed.

(** X15: the machine keeps its shape.  After a reset the program
    counter, the stack pointer and the registers are 16-bit words and the
    flag word has only its four defined bits; every step that succeeds,
    and hence every run, leaves a CPU of that shape and a memory whose
    cells are bytes. *)
Theorem machine_invariant : forall code c m,
  cpu_ok c -> bytes_ok m ->
  (forall c0, cpu_ok (reset c0)) /\
  (forall c' m', step code c m = Some (c', m') -> cpu_ok c' /\ bytes_ok m') /\
  (forall fuel c' m',
     run code fuel c m = Some (c', m') -> cpu_ok c' /\ bytes_ok m').
Proof.
  intros code c m Hc Hm. split_all.
  - intros c0. unfold cpu_ok, reset, PROGRAM_START, STACK_END.
    cbn [pc sp flags registers]. split_all; lia.
  - intros c' m'. apply step_ok; assumption.
  - intros fuel. revert c m Hc Hm.
    induction fuel as [|fuel IH]; intros c m Hc Hm c' m' Hrun;
      cbn [run] in Hrun.
    + injection Hrun as <- <-. split; assumption.
    + destruct (halted c).
      * injection Hrun as <- <-. split; assumption.
      * destruct (step code c m) as [[c1 m1]|] eqn:Hstep;
          [|discriminate Hrun].
        cbn [bind fst snd] in Hrun.
        destruct (step_ok code c c1 m m1 Hc Hm Hstep) as [Hc1 Hm1].
        exact (IH c1 m1 Hc1 Hm1 c' m' Hrun).
Qed.

Lemma machine_invariant_witness :
  cpu_ok (call_cpu 0xFFFF) /\ bytes_ok call_mem /\
  forall c' m',
    step sequential_codes (call_cpu 0xFFFF) call_mem = Some (c', m') ->
    cpu_ok c' /\ bytes_ok m'.
Proof.
  assert (Hcpu : cpu_ok (call_cpu 0xFFFF)).
  { unfold cpu_ok, call_cpu, CPU_new, reset.
    cpu_fields. split_all; lia. }
  assert (Hnew : bytes_ok Memory_new) by (intros x; cbn [data Memory_new]; lia).
  assert (Hmem : bytes_ok call_mem)
    by (unfold call_mem; cbn [memory_with];
        repeat apply bytes_ok_write_word; exact Hnew).
  split; [exact Hcpu|]. split; [exact Hmem|].
  destruct (machine_invariant sequential_codes (call_cpu 0xFFFF) call_mem
              Hcpu Hmem) as (_ & Hstep & _).
  exact Hstep.
Defined.

(** ** Register indices *)

Lemma decode_opcode_some (code : Opcode -> Z) (z : Z) (o : Opcode) :
  decode_opcode code z = Some o -> code o = z.
Proof.
  unfold decode_opcode. intros Hfind.
  apply find_some in Hfind. destruct Hfind as [_ Heq].
  apply Z.eqb_eq. exact Heq.
Qed.

Lemma field3_range (x s : Z) : 0 <= Z.land (Z.shiftr x s) 0x07 < 8.
Proof.
  change 0x07 with (Z.ones 3). rewrite Z.land_ones by lia.
  apply Z.mod_pos_bound. reflexivity.
Qed.

Lemma field4_range (x : Z) : 0 <= Z.land x 0x0F < 16.
Proof.
  change 0x0F with (Z.ones 4). rewrite Z.land_ones by lia.
  apply Z.mod_pos_bound. reflexivity.
Qed.

Lemma field7_range (x : Z) : 0 <= Z.land x 0x7F < 128.
Proof.
  change 0x7F with (Z.ones 7). rewrite Z.land_ones by lia.
  apply Z.mod_pos_bound. reflexivity.
Qed.

Lemma fields_are_bytes (x : Z) :
  to_byte (GET_OPCODE x) = GET_OPCODE x /\
  to_byte (GET_RD x) = GET_RD x /\
  to_byte (GET_RS x) = GET_RS x /\
  to_byte (GET_RT x) = GET_RT x /\
  to_byte (GET_IMM4 x) = GET_IMM4 x /\
  to_byte (GET_IMM7 x) = GET_IMM7 x.
Proof.
  pose proof (GET_OPCODE_range x). pose proof (field3_range x 7).
  pose proof (field3_range x 4). pose proof (field4_range x).
  pose proof (field7_range x).
  unfold GET_RD, GET_RS, GET_RT, GET_IMM4, GET_IMM7.
  split_all; apply to_byte_small; lia.
Qed.

Lemma reg_read_in_range (regs : Z -> Z) (i : Z) :
  0 <= i < 8 -> reg_read regs i = Some (regs i).
Proof.
  intros Hi. unfold reg_read, NUM_REGISTERS.
  destruct (Z.leb_spec 0 i); [|lia]. destruct (Z.ltb_spec i 8); [|lia].
  reflexivity.
Qed.

Lemma reg_read_out_of_range (regs : Z -> Z) (i : Z) :
  8 <= i -> reg_read regs i = None.
Proof.
  intros Hi. unfold reg_read, NUM_REGISTERS.
  destruct (Z.ltb_spec i 8); [lia|]. rewrite andb_false_r. reflexivity.
Qed.

Lemma reg_write_in_range (regs : Z -> Z) (i v : Z) :
  0 <= i < 8 ->
  reg_write regs i v = Some (fun j => if j =? i then to_word v else regs j).
Proof.
  intros Hi. unfold reg_write, NUM_REGISTERS.
  destruct (Z.leb_spec 0 i); [|lia]. destruct (Z.ltb_spec i 8); [|lia].
  reflexivity.
Qed.

(** [execute_instruction] with the fields of a fetched word written
    plainly: the conversions of the decoded fields to bytes are the
    identity, and the accesses through [rd] and [rs] are in bounds. *)
Ltac plain_fields instr :=
  destruct (fields_are_bytes instr) as (Fop & Frd & Frs & Frt & Fi4 & Fi7);
  rewrite ?Fop, ?Frd, ?Frs, ?Frt, ?Fi4, ?Fi7;
  clear Fop Frd Frs Frt Fi4 Fi7;
  unfold commit, set_reg, push, pop; cpu_fields;
  repeat (progress
    (rewrite ?(reg_read_in_range _ (GET_RD instr) (field3_range instr 7)),
       ?(reg_read_in_range _ (GET_RS instr) (field3_range instr 4)),
       ?(reg_write_in_range _ (GET_RD instr) _ (field3_range instr 7));
     cbn [bind])).

Section StepOutcome.

Variable code : Opcode -> Z.
Hypothesis code_ok : opcode_table_ok code.

(** X16: the only way a step goes wrong.  A step of a running CPU has no
    defined outcome exactly when the instruction is one of the ten
    three-register instructions (ADD, SUB, MUL, DIV, AND, OR, XOR, SHL,
    SHR, CMP) and its 4-bit rt field is 8 or more: the register array,
    which has eight cells, is then indexed out of bounds.  Every other
    instruction word, known or unknown, gives a next state. *)
Theorem step_fails_exactly_on_rt : forall c m,
  halted c = false ->
  (step code c m = None <->
   exists o, opcode_at m (pc c) = code o /\ uses_rt o = true /\
             8 <= GET_RT (read_word m (pc c))).
Proof.
  intros c m Hrun.
  assert (Hname : forall o o', opcode_at m (pc c) = code o ->
                    opcode_at m (pc c) = code o' -> o' = o).
  { intros o o' H1 H2. destruct code_ok as [Hinj _]. apply Hinj. congruence. }
  unfold step, fetch_decode_execute, execute_instruction.
  rewrite Hrun. cbv zeta.
  rewrite (to_word_small _ (read_word_range m (pc c))).
  set (instr := read_word m (pc c)).
  pose proof (field4_range instr) as Hrt. fold (GET_RT instr) in Hrt.
  plain_fields instr.
  destruct (decode_opcode code (GET_OPCODE instr)) as [o|] eqn:Hdec.
  - apply decode_opcode_some in Hdec.
    assert (Hop : opcode_at m (pc c) = code o) by (symmetry; exact Hdec).
    destruct (Z.ltb_spec (GET_RT instr) 8) as [Hin|Hout];
      [rewrite ?(reg_read_in_range _ (GET_RT instr)) by lia
      |rewrite ?(reg_read_out_of_range _ (GET_RT instr)) by lia];
      cbn [bind];
      repeat (progress
        (rewrite ?(reg_write_in_range _ (GET_RD instr) _
                     (field3_range instr 7));
         cbn [bind])).
    all: destruct o; cbn [bind];
      repeat match goal with
             | |- context [if ?b then _ else _] => destruct b
             end; cbn [bind];
      (split;
       [ intros Hnone;
         first [ discriminate Hnone
               | eexists; split; [exact Hop|]; split; [reflexivity | lia] ]
       | intros (o' & Hop' & Huses & Hbig);
         first [ reflexivity
               | rewrite (Hname _ _ Hop Hop') in Huses;
                 first [discriminate Huses | lia] ] ]).
  - cbn [bind]. split; [intros Hnone; discriminate Hnone|].
    intros (o' & Hop' & _). exfalso.
    unfold opcode_at in Hop'. fold instr in Hop'.
    rewrite Hop', (decode_opcode_code code code_ok) in Hdec.
    discriminate Hdec.
Qed.
(** Run one step of a running CPU on the instruction [o] up to the point
    where the outcome is a plain state, for each arm and each test. *)
Ltac step_cases c m o Hrun Hop :=
  unfold step, fetch_decode_execute, execute_instruction;
  rewrite Hrun; cbv zeta;
  rewrite (dispatch_fetched code code_ok _ _ _ Hop);
  rewrite (to_word_small _ (read_word_range m (pc c)));
  plain_fields (read_word m (pc c));
  (destruct (Z.ltb_spec (GET_RT (read_word m (pc c))) 8) as [Hin|Hout];
   [ rewrite ?(reg_read_in_range _ (GET_RT (read_word m (pc c))))
       by (pose proof (field4_range (read_word m (pc c))) as Hrt;
           fold (GET_RT (read_word m (pc c))) in Hrt; lia)
   | rewrite ?(reg_read_out_of_range _ (GET_RT (read_word m (pc c))))
       by exact Hout ]);
  cbn [bind];
  repeat (progress
    (rewrite ?(reg_write_in_range _ (GET_RD (read_word m (pc c))) _
                 (field3_range (read_word m (pc c)) 7));
     cbn [bind]));
  destruct o; cbn [bind];
  repeat match goal with
         | |- context [if ?b then _ else _] => destruct b
         end;
  cbn [bind fst snd]; cpu_fields.

(** X17: what a step leaves alone.  After a successful step on a known
    instruction, every register other than the one named by the rd field
    is unchanged; the flags are unchanged unless the instruction is of the
    arithmetic, logical, shift or compare families; the stack pointer is
    unchanged unless it is CALL, RET, PUSH or POP; the memory and the
    console are unchanged unless it is a store, CALL or PUSH; the
    instruction counter grows by one; debug mode is kept; and the CPU is
    halted afterwards exactly when the instruction is HALT. *)
Theorem step_frame : forall c m c' m' o,
  halted c = false ->
  opcode_at m (pc c) = code o ->
  step code c m = Some (c', m') ->
  (forall i, i <> GET_RD (read_word m (pc c)) ->
     registers c' i = registers c i) /\
  (writes_flags o = false -> flags c' = flags c) /\
  (moves_sp o = false -> sp c' = sp c) /\
  (writes_memory o = false -> m' = m) /\
  instruction_count c' = instruction_count c + 1 /\
  debug_mode c' = debug_mode c /\
  halted c' = match o with OP_HALT => true | _ => false end.
Proof.
  intros c m c' m' o Hrun Hop. step_cases c m o Hrun Hop.
  all: intros Hstep; try discriminate Hstep; injection Hstep as <- <-.
  all: cbn [pc sp flags registers halted debug_mode instruction_count].
  all: split_all; try reflexivity; try exact Hrun;
    try (intros Hfam; first [reflexivity | discriminate Hfam]).
  all: intros i Hi; destruct (Z.eqb_spec i (GET_RD (read_word m (pc c))));
    [contradiction | reflexivity].
Qed.

(** X18: the program counter after an instruction that is not a control
    transfer.  Such an instruction leaves the program counter just past
    its encoding: 4 bytes on for LOAD and STORE with a direct address,
    which carry an address word, and 2 bytes on for every other one, HALT
    included, modulo 2^16. *)
Theorem step_advances_pc : forall c m c' m' o,
  halted c = false ->
  opcode_at m (pc c) = code o ->
  is_control_transfer o = false ->
  step code c m = Some (c', m') ->
  pc c' = to_word (pc c + instruction_size o).
Proof.
  intros c m c' m' o Hrun Hop. step_cases c m o Hrun Hop.
  all: intros Hct; try discriminate Hct.
  all: intros Hstep; try discriminate Hstep; injection Hstep as <- <-.
  all: cbn [pc instruction_size has_address_word];
    first [reflexivity | apply to_word_add_4].
Qed.

End StepOutcome.

Lemma step_fails_exactly_on_rt_witness :
  opcode_table_ok sequential_codes /\
  halted CPU_new = false /\
  step sequential_codes CPU_new
    (memory_with [(0x0000, MAKE_INSTR 6 0 0 9)]) = None.
Proof.
  split; [exact sequential_codes_ok|]. split; [reflexivity|].
  apply (step_fails_exactly_on_rt sequential_codes sequential_codes_ok
           CPU_new (memory_with [(0x0000, MAKE_INSTR 6 0 0 9)]) eq_refl).
  exists OP_ADD. split; [reflexivity|]. split; [reflexivity|].
  discriminate.
Defined.

Lemma step_frame_witness :
  opcode_table_ok sequential_codes /\
  halted (call_cpu 0xFFFF) = false /\
  opcode_at call_mem (pc (call_cpu 0xFFFF)) = sequential_codes OP_CALL /\
  forall c' m',
    step sequential_codes (call_cpu 0xFFFF) call_mem = Some (c', m') ->
    flags c' = flags (call_cpu 0xFFFF) /\
    instruction_count c' = 1.
Proof.
  split; [exact sequential_codes_ok|]. split; [reflexivity|].
  split; [reflexivity|]. intros c' m' Hstep.
  destruct (step_frame sequential_codes sequential_codes_ok
              (call_cpu 0xFFFF) call_mem c' m' OP_CALL eq_refl eq_refl Hstep)
    as (_ & Hflags & _ & _ & Hcount & _).
  split; [apply Hflags; reflexivity | exact Hcount].
Defined.

Lemma step_advances_pc_witness :
  opcode_table_ok sequential_codes /\
  halted CPU_new = false /\
  opcode_at (memory_with [(0x0000, 0x9000)]) (pc CPU_new) =
    sequential_codes OP_HALT /\
  is_control_transfer OP_HALT = false /\
  forall c' m',
    step sequential_codes CPU_new (memory_with [(0x0000, 0x9000)]) =
      Some (c', m') ->
    pc c' = 0x0002.
Proof.
  split; [exact sequential_codes_ok|]. do 3 (split; [reflexivity|]).
  intros c' m' Hstep.
  exact (step_advances_pc sequential_codes sequential_codes_ok CPU_new
           (memory_with [(0x0000, 0x9000)]) c' m' OP_HALT
           eq_refl eq_refl eq_refl Hstep).
Defined.

(** ** Instructions from encoding to effect *)

Lemma sign_extend_of_field (w : imm_width) (x : Z) :
  - 2 ^ (imm_bits w - 1) <= x < 2 ^ (imm_bits w - 1) ->
  sign_extend w (imm_field w x) = x.
Proof.
  intros Hx.
  assert (Hfield : 0 <= imm_field w x < 2 ^ imm_bits w).
  { rewrite imm_field_mod. apply Z.mod_pos_bound. destruct w; reflexivity. }
  rewrite (sign_extend_value w _ Hfield), imm_field_mod.
  destruct w; cbn [imm_bits] in *;
    match goal with
    | |- context [?a <? ?b] => destruct (Z.ltb_spec a b)
    end; Z.to_euclidean_division_equations; lia.
Qed.

Lemma mask_of_small (x k : Z) :
  0 <= k -> 0 <= x < 2 ^ k -> Z.land x (Z.ones k) = x.
Proof.
  intros Hk Hx. rewrite Z.land_ones by exact Hk. apply Z.mod_small, Hx.
Qed.

Section Instructions.

Variable code : Opcode -> Z.
Hypothesis code_ok : opcode_table_ok code.

(** X19: MOVI from its encoding.  When the word at the program counter is
    [MAKE_INSTR_IMM7] of MOVI's opcode, a register number rd and an
    immediate x between -64 and 63, the step puts x, as a 16-bit two's
    complement word, in register rd, moves the program counter 2 on, and
    changes no other register, no flag, neither SP nor the memory. *)
Theorem movi_loads_immediate : forall c m rd x,
  halted c = false ->
  0 <= rd < 8 ->
  -64 <= x <= 63 ->
  read_word m (pc c) = MAKE_INSTR_IMM7 (code OP_MOVI) rd x ->
  step code c m =
    Some (mkCPU (fun j => if j =? rd then x mod 65536 else registers c j)
                (to_word (pc c + 2)) (sp c) (flags c) false (debug_mode c)
                (instruction_count c + 1), m).
Proof.
  intros c m rd x Hrun Hrd Hx Hword.
  destruct code_ok as [_ Hrange].
  assert (Hop : opcode_at m (pc c) = code OP_MOVI).
  { unfold opcode_at. rewrite Hword, GET_OPCODE_MAKE_INSTR_IMM7.
    apply (mask_of_small _ 6); [lia | exact (Hrange OP_MOVI)]. }
  assert (Hfrd : GET_RD (read_word m (pc c)) = rd).
  { rewrite Hword, GET_RD_MAKE_INSTR_IMM7.
    apply (mask_of_small _ 3); [lia | cbn; lia]. }
  assert (Himm : sign_extend_7bit (GET_IMM7 (read_word m (pc c))) = x).
  { rewrite Hword, GET_IMM7_MAKE_INSTR_IMM7.
    apply (sign_extend_of_field Imm7 x). cbn. lia. }
  unfold step, fetch_decode_execute, execute_instruction.
  rewrite Hrun. cbv zeta.
  rewrite (dispatch_fetched code code_ok _ _ _ Hop).
  rewrite (to_word_small _ (read_word_range m (pc c))).
  plain_fields (read_word m (pc c)).
  rewrite Hfrd, Himm, Hrun. cbn [fst snd]. cpu_fields. reflexivity.
Qed.

Lemma step_PUSH (c : CPU) (m : Memory) :
  halted c = false ->
  opcode_at m (pc c) = code OP_PUSH ->
  step code c m =
    Some (mkCPU (registers c) (to_word (pc c + 2)) (to_word (sp c - 2))
                (flags c) false (debug_mode c) (instruction_count c + 1),
          write_word m (to_word (sp c - 2))
            (registers c (GET_RS (read_word m (pc c))))).
Proof.
  intros Hrun Hop.
  unfold step, fetch_decode_execute, execute_instruction.
  rewrite Hrun. cbv zeta.
  rewrite (dispatch_fetched code code_ok _ _ _ Hop).
  rewrite (to_word_small _ (read_word_range m (pc c))).
  plain_fields (read_word m (pc c)).
  rewrite Hrun. cbn [fst snd]. cpu_fields. reflexivity.
Qed.

Lemma step_POP (c : CPU) (m : Memory) :
  halted c = false ->
  opcode_at m (pc c) = code OP_POP ->
  step code c m =
    Some (mkCPU (fun j => if j =? GET_RD (read_word m (pc c))
                          then to_word (read_word m (sp c))
                          else registers c j)
                (to_word (pc c + 2)) (to_word (sp c + 2))
                (flags c) false (debug_mode c) (instruction_count c + 1), m).
Proof.
  intros Hrun Hop.
  unfold step, fetch_decode_execute, execute_instruction.
  rewrite Hrun. cbv zeta.
  rewrite (dispatch_fetched code code_ok _ _ _ Hop).
  rewrite (to_word_small _ (read_word_range m (pc c))).
  plain_fields (read_word m (pc c)).
  rewrite Hrun. cbn [fst snd]. cpu_fields. reflexivity.
Qed.

(** X20: PUSH then POP gives the value back.  A PUSH executed with a stack
    pointer whose new slot does not touch the console port (SP neither
    0xF002 nor 0xF001) moves SP down by 2 and stores the register named
    by its rs field there; a POP executed later with SP and the stored
    word as the PUSH left them loads that value, as a word, into the
    register named by its rd field and puts SP back. *)
Theorem push_then_pop_round_trip : forall c m,
  halted c = false ->
  0 <= sp c < 65536 ->
  opcode_at m (pc c) = code OP_PUSH ->
  sp c <> 0xF002 ->
  sp c <> 0xF001 ->
  exists c1 m1,
    step code c m = Some (c1, m1) /\
    sp c1 = to_word (sp c - 2) /\
    read_word m1 (sp c1) =
      to_word (registers c (GET_RS (read_word m (pc c)))) /\
    forall c2 m2,
      halted c2 = false ->
      opcode_at m2 (pc c2) = code OP_POP ->
      sp c2 = sp c1 ->
      read_word m2 (sp c1) = read_word m1 (sp c1) ->
      exists c3,
        step code c2 m2 = Some (c3, m2) /\
        registers c3 (GET_RD (read_word m2 (pc c2))) =
          to_word (registers c (GET_RS (read_word m (pc c)))) /\
        sp c3 = sp c.
Proof.
  intros c m Hrun Hsp Hop H2 H1.
  destruct (stack_slot_off_port (sp c) Hsp H2 H1) as (Hlo & Hhi & Hback).
  eexists. eexists. split; [apply (step_PUSH c m Hrun Hop)|].
  cbn [pc sp]. split; [reflexivity|].
  assert (Hslot :
    read_word (write_word m (to_word (sp c - 2))
                 (registers c (GET_RS (read_word m (pc c)))))
      (to_word (sp c - 2)) =
    to_word (registers c (GET_RS (read_word m (pc c)))))
    by (apply read_word_write_word_same; assumption).
  split; [exact Hslot|].
  intros c2 m2 Hrun2 Hop2 Hsp2 Hmem2.
  eexists. split; [apply (step_POP c2 m2 Hrun2 Hop2)|].
  cbn [registers sp]. rewrite Z.eqb_refl, Hsp2, Hmem2, Hslot, Hback.
  split; [apply to_word_idem | reflexivity].
Qed.

Lemma step_STORE_DIR (c : CPU) (m : Memory) :
  halted c = false ->
  opcode_at m (pc c) = code OP_STORE_DIR ->
  step code c m =
    Some (mkCPU (registers c) (to_word (pc c + 4)) (sp c)
                (flags c) false (debug_mode c) (instruction_count c + 1),
          write_word m (read_word m (pc c + 2))
            (registers c (GET_RS (read_word m (pc c))))).
Proof.
  intros Hrun Hop.
  unfold step, fetch_decode_execute, execute_instruction.
  rewrite Hrun. cbv zeta.
  rewrite (dispatch_fetched code code_ok _ _ _ Hop).
  rewrite (to_word_small _ (read_word_range m (pc c))).
  plain_fields (read_word m (pc c)).
  rewrite Hrun, read_word_to_word, to_word_add_4.
  cbn [fst snd]. cpu_fields. reflexivity.
Qed.

(** X21: printing a character.  A STORE of a register to the direct
    address 0xF000 appends the low byte of the register to the console
    output, leaves the cell 0xF000 as it was, stores the high byte of the
    register in the cell 0xF001 and changes no other cell; the registers,
    the flags and SP are unchanged and the program counter is 4 on. *)
Theorem store_to_console_port : forall c m,
  halted c = false ->
  opcode_at m (pc c) = code OP_STORE_DIR ->
  read_word m (pc c + 2) = 0xF000 ->
  let v := to_word (registers c (GET_RS (read_word m (pc c)))) in
  exists c' m',
    step code c m = Some (c', m') /\
    console m' = console m ++ [Z.land v 0xFF] /\
    read_byte m' 0xF001 = Z.land (Z.shiftr v 8) 0xFF /\
    (forall a, to_word a <> 0xF001 -> read_byte m' a = read_byte m a) /\
    registers c' = registers c /\ flags c' = flags c /\ sp c' = sp c /\
    pc c' = to_word (pc c + 4).
Proof.
  intros c m Hrun Hop Haddr. cbv zeta.
  eexists. eexists. split; [apply (step_STORE_DIR c m Hrun Hop)|].
  rewrite Haddr. cbn [registers flags sp pc].
  unfold write_word. change (to_word 0xF000) with 0xF000.
  change (0xF000 + 1) with 0xF001.
  rewrite !(to_byte_small _ (low_byte_is_byte _)).
  split_all; try reflexivity.
  - rewrite !console_write_byte.
    change (to_word 0xF000 =? IO_CONSOLE_OUT) with true.
    change (to_word 0xF001 =? IO_CONSOLE_OUT) with false.
    rewrite app_nil_r, (to_byte_small _ (low_byte_is_byte _)). reflexivity.
  - rewrite read_byte_write_byte_same by discriminate.
    apply to_byte_small, low_byte_is_byte.
  - intros a Ha.
    rewrite read_byte_write_byte_other by exact Ha.
    apply read_byte_write_byte_port. reflexivity.
Qed.

End Instructions.

Lemma movi_loads_immediate_witness :
  opcode_table_ok sequential_codes /\
  halted CPU_new = false /\ 0 <= 3 < 8 /\ -64 <= -5 <= 63 /\
  read_word (memory_with [(0x0000, MAKE_INSTR_IMM7 1 3 (-5))]) (pc CPU_new) =
    MAKE_INSTR_IMM7 (sequential_codes OP_MOVI) 3 (-5) /\
  step sequential_codes CPU_new
       (memory_with [(0x0000, MAKE_INSTR_IMM7 1 3 (-5))]) =
    Some (mkCPU (fun j => if j =? 3 then 0xFFFB else registers CPU_new j)
                0x0002 0xFFFF 0 false false 1,
          memory_with [(0x0000, MAKE_INSTR_IMM7 1 3 (-5))]).
Proof.
  split; [exact sequential_codes_ok|]. split; [reflexivity|].
  split; [lia|]. split; [lia|]. split; [reflexivity|].
  apply (movi_loads_immediate sequential_codes sequential_codes_ok CPU_new
           (memory_with [(0x0000, MAKE_INSTR_IMM7 1 3 (-5))]) 3 (-5));
    first [reflexivity | lia].
Defined.

(** [PUSH R1] with R1 = 0x1234 and SP = 0x8000, then the [POP R2] that
    follows it: the PUSH leaves SP = 0x7FFE with 0x34 at 0x7FFE and 0x12 at
    0x7FFF, and the POP, run on the state the PUSH left, puts 0x1234 in R2
    (which held 0) and SP back at 0x8000. *)
Lemma push_then_pop_round_trip_witness :
  opcode_table_ok sequential_codes /\
  halted push_pop_cpu = false /\
  0 <= sp push_pop_cpu < 65536 /\
  opcode_at push_pop_mem (pc push_pop_cpu) = sequential_codes OP_PUSH /\
  sp push_pop_cpu <> 0xF002 /\
  sp push_pop_cpu <> 0xF001 /\
  registers push_pop_cpu 1 = 0x1234 /\
  registers push_pop_cpu 2 = 0 /\
  read_word push_pop_mem 0x7FFE = 0 /\
  exists c1 m1 c3,
    step sequential_codes push_pop_cpu push_pop_mem = Some (c1, m1) /\
    sp c1 = 0x7FFE /\
    read_word m1 (sp c1) = 0x1234 /\
    read_byte m1 0x7FFE = 0x34 /\
    read_byte m1 0x7FFF = 0x12 /\
    halted c1 = false /\
    opcode_at m1 (pc c1) = sequential_codes OP_POP /\
    step sequential_codes c1 m1 = Some (c3, m1) /\
    registers c3 2 = 0x1234 /\
    sp c3 = 0x8000.
Proof.
  split; [exact sequential_codes_ok|].
  split; [reflexivity|]. split; [cbn; lia|]. split; [reflexivity|].
  split; [discriminate|]. split; [discriminate|].
  split; [reflexivity|]. split; [reflexivity|]. split; [reflexivity|].
  destruct (push_then_pop_round_trip sequential_codes sequential_codes_ok
              push_pop_cpu push_pop_mem)
    as (c1 & m1 & Hstep & Hsp & Hslot & Hpop);
    try first [reflexivity | discriminate | cbn; lia].
  rewrite (step_PUSH sequential_codes sequential_codes_ok
             push_pop_cpu push_pop_mem eq_refl eq_refl) in Hstep.
  injection Hstep as Hc1 Hm1.
  destruct (Hpop c1 m1) as (c3 & Hstep3 & Hreg & Hsp3);
    try (rewrite <- ?Hc1, <- ?Hm1; reflexivity).
  exists c1, m1, c3.
  split; [rewrite <- Hc1, <- Hm1;
          apply (step_PUSH sequential_codes sequential_codes_ok
                   push_pop_cpu push_pop_mem eq_refl eq_refl)|].
  split; [exact Hsp|]. split; [exact Hslot|].
  split; [rewrite <- Hm1; reflexivity|].
  split; [rewrite <- Hm1; reflexivity|].
  split; [rewrite <- Hc1; reflexivity|].
  split; [rewrite <- Hc1, <- Hm1; reflexivity|].
  split; [exact Hstep3|].
  split; [|exact Hsp3].
  rewrite <- Hc1, <- Hm1 in Hreg. exact Hreg.
Defined.

Lemma store_to_console_port_witness :
  opcode_table_ok sequential_codes /\
  halted (with_registers CPU_new (fun _ => 0x0141)) = false /\
  opcode_at (memory_with [(0x0000, MAKE_INSTR 5 0 3 0); (0x0002, 0xF000)])
            (pc (with_registers CPU_new (fun _ => 0x0141))) =
    sequential_codes OP_STORE_DIR /\
  read_word (memory_with [(0x0000, MAKE_INSTR 5 0 3 0); (0x0002, 0xF000)])
            (pc (with_registers CPU_new (fun _ => 0x0141)) + 2) = 0xF000 /\
  exists c' m',
    step sequential_codes (with_registers CPU_new (fun _ => 0x0141))
         (memory_with [(0x0000, MAKE_INSTR 5 0 3 0); (0x0002, 0xF000)]) =
      Some (c', m') /\
    console m' = [0x41] /\
    read_byte m' 0xF001 = 0x01.
Proof.
  split; [exact sequential_codes_ok|]. do 3 (split; [reflexivity|]).
  destruct (store_to_console_port sequential_codes sequential_codes_ok
              (with_registers CPU_new (fun _ => 0x0141))
              (memory_with [(0x0000, MAKE_INSTR 5 0 3 0); (0x0002, 0xF000)])
              eq_refl eq_refl eq_refl)
    as (c' & m' & Hstep & Hconsole & Hhigh & _).
  exists c', m'. split; [exact Hstep|]. split; [exact Hconsole | exact Hhigh].
Defined.

(** ** Running *)

Lemma execute_keeps_count (code : Opcode -> Z) (c c' : CPU) (m m' : Memory)
    (instr : Z) :
  execute_instruction code c m instr = Some (c', m') ->
  instruction_count c' = instruction_count c.
Proof.
  intros Hexec. unfold execute_instruction in Hexec. cbv zeta in Hexec.
  destruct (decode_opcode code _) as [o|]; [destruct o|];
    exec_inv Hexec; reflexivity.
Qed.

Lemma step_counts_one (code : Opcode -> Z) (c c' : CPU) (m m' : Memory) :
  halted c = false ->
  step code c m = Some (c', m') ->
  instruction_count c' = instruction_count c + 1.
Proof.
  intros Hrun Hstep. unfold step, fetch_decode_execute in Hstep.
  rewrite Hrun in Hstep. cbv zeta in Hstep.
  destruct (execute_instruction code _ m _) as [[c1 m1]|] eqn:Hexec;
    [|discriminate Hstep].
  cbn [bind fst snd] in Hstep. injection Hstep as <- <-.
  apply execute_keeps_count in Hexec. cbn [instruction_count].
  rewrite Hexec. reflexivity.
Qed.

Lemma run_halted (code : Opcode -> Z) (n : nat) (c : CPU) (m : Memory) :
  halted c = true -> run code n c m = Some (c, m).
Proof.
  intros Hh. destruct n as [|n]; cbn [run]; [|rewrite Hh]; reflexivity.
Qed.

Lemma run_add (code : Opcode -> Z) (n k : nat) :
  forall c m,
  run code (n + k) c m =
    (cm <- run code n c m ;; run code k (fst cm) (snd cm)).
Proof.
  induction n as [|n IH]; intros c m; cbn [Nat.add run bind fst snd].
  - reflexivity.
  - destruct (halted c) eqn:Hh.
    + cbn [bind fst snd]. symmetry. apply run_halted. exact Hh.
    + destruct (step code c m) as [[c1 m1]|]; cbn [bind fst snd].
      * apply IH.
      * reflexivity.
Qed.

Lemma run_counts (code : Opcode -> Z) (n : nat) :
  forall c m c' m',
  run code n c m = Some (c', m') ->
  instruction_count c <= instruction_count c'
    <= instruction_count c + Z.of_nat n /\
  (halted c' = false ->
   instruction_count c' = instruction_count c + Z.of_nat n).
Proof.
  induction n as [|n IH]; intros c m c' m' Hrun; cbn [run] in Hrun.
  - injection Hrun as <- <-. split; [lia|]. intros _. cbn. lia.
  - destruct (halted c) eqn:Hh.
    + injection Hrun as <- <-. split; [lia|].
      intros Hno. rewrite Hh in Hno. discriminate Hno.
    + destruct (step code c m) as [[c1 m1]|] eqn:Hstep;
        [|discriminate Hrun].
      cbn [bind fst snd] in Hrun.
      pose proof (step_counts_one code c c1 m m1 Hh Hstep) as Hone.
      destruct (IH c1 m1 c' m' Hrun) as [Hbound Hexact].
      split; [lia|]. intros Hno. rewrite (Hexact Hno). lia.
Qed.

(** X22: how runs compose and what the instruction counter counts.
    Running for n + k rounds is running for n rounds and then for k more;
    a halted CPU is left as it is by any run, so once a run has reached a
    halted state more rounds change nothing; and the instruction counter
    grows by at most the number of rounds, by exactly that number when
    the CPU is still running at the end. *)
Theorem run_composes : forall code n k c m,
  run code (n + k) c m =
    (cm <- run code n c m ;; run code k (fst cm) (snd cm)) /\
  (halted c = true -> run code n c m = Some (c, m)) /\
  (forall c' m',
     run code n c m = Some (c', m') ->
     (halted c' = true -> run code (n + k) c m = Some (c', m')) /\
     instruction_count c <= instruction_count c'
       <= instruction_count c + Z.of_nat n /\
     (halted c' = false ->
      instruction_count c' = instruction_count c + Z.of_nat n)).
Proof.
  intros code n k c m. split; [apply run_add|]. split; [apply run_halted|].
  intros c' m' Hrun.
  destruct (run_counts code n c m c' m' Hrun) as [Hbound Hexact].
  split; [|split; assumption].
  intros Hh. rewrite run_add, Hrun. cbn [bind fst snd].
  apply run_halted. exact Hh.
Qed.

(** ** Memory dumps *)

Lemma row_cells_spec (m : Memory) (addr end_ : Z) (fuel : nat) :
  forall i,
  row_cells fuel m addr end_ i =
    map (data m)
        (addresses_from (addr + i)
           (Z.to_nat (Z.min (Z.of_nat fuel)
                        (Z.min (16 - i) (end_ - addr - i + 1))))).
Proof.
  induction fuel as [|fuel IH]; intros i; cbn [row_cells].
  - match goal with
      | |- context [Z.to_nat ?x] => replace (Z.to_nat x) with O by lia
      end. reflexivity.
  - destruct (Z.ltb_spec i 16) as [Hi|Hi];
      destruct (Z.leb_spec (addr + i) end_) as [He|He]; cbn [andb].
    + rewrite IH.
      replace (Z.to_nat (Z.min (Z.of_nat (S fuel))
                 (Z.min (16 - i) (end_ - addr - i + 1))))
        with (S (Z.to_nat (Z.min (Z.of_nat fuel)
                   (Z.min (16 - (i + 1)) (end_ - addr - (i + 1) + 1)))))
        by lia.
      cbn [addresses_from map].
      replace (addr + i + 1) with (addr + (i + 1)) by lia. reflexivity.
    + match goal with
      | |- context [Z.to_nat ?x] => replace (Z.to_nat x) with O by lia
      end. reflexivity.
    + match goal with
      | |- context [Z.to_nat ?x] => replace (Z.to_nat x) with O by lia
      end. reflexivity.
    + match goal with
      | |- context [Z.to_nat ?x] => replace (Z.to_nat x) with O by lia
      end. reflexivity.
Qed.

Lemma dump_rows_diverges (m : Memory) (start end_ : Z) (fuel : nat) :
  0xFFF0 + start mod 16 <= end_ ->
  forall addr,
  0 <= addr < 65536 -> addr mod 16 = start mod 16 ->
  dump_rows fuel m addr end_ = None.
Proof.
  intros Hend. induction fuel as [|fuel IH]; intros addr Haddr Hres;
    cbn [dump_rows].
  - reflexivity.
  - destruct (Z.leb_spec addr end_) as [_|Hgt].
    + rewrite IH; [reflexivity | apply to_word_range |].
      rewrite <- Hres. unfold to_word.
      Z.to_euclidean_division_equations. lia.
    + exfalso. Z.to_euclidean_division_equations. lia.
Qed.

Lemma dump_rows_finishes (m : Memory) (end_ : Z) (n : nat) :
  forall addr fuel,
  (n < fuel)%nat ->
  0 <= addr ->
  addr + 16 * Z.of_nat n <= 65535 ->
  end_ < addr + 16 * Z.of_nat n ->
  (n = O \/ addr + 16 * (Z.of_nat n - 1) <= end_) ->
  dump_rows fuel m addr end_ = Some (rows_from m end_ addr n).
Proof.
  induction n as [|n IH]; intros addr fuel Hfuel Haddr Htop Hlast Hrows;
    (destruct fuel as [|fuel]; [lia|]); cbn [dump_rows rows_from].
  - destruct (Z.leb_spec addr end_); [lia | reflexivity].
  - destruct Hrows as [Hn|Hrows]; [discriminate Hn|].
    destruct (Z.leb_spec addr end_); [|lia].
    rewrite (to_word_small (addr + 16)) by lia.
    rewrite (IH (addr + 16) fuel); [reflexivity | lia | lia | lia | lia |].
    destruct n as [|n]; [left; reflexivity | right; lia].
Qed.

Lemma dump_row_count_fits (start end_ : Z) :
  0 <= start < 65536 -> 0 <= end_ < 65536 ->
  end_ < start \/ end_ < 0xFFF0 + start mod 16 ->
  let n := dump_row_count start end_ in
  start + 16 * Z.of_nat n <= 65535 /\
  end_ < start + 16 * Z.of_nat n /\
  (n = O \/ start + 16 * (Z.of_nat n - 1) <= end_).
Proof.
  intros Hs He Hfit. cbv zeta. unfold dump_row_count.
  destruct (Z.leb_spec start end_) as [Hle|Hgt].
  - destruct Hfit as [Hfit|Hfit]; [lia|].
    assert (Hq : 0 <= (end_ - start) / 16) by (apply Z.div_pos; lia).
    rewrite Z2Nat.id by lia.
    split_all; [| |right]; Z.to_euclidean_division_equations; lia.
  - cbn. split_all; [lia | lia | left; reflexivity].
Qed.

(** X23: a dump that reaches the last row of memory never ends.  The row
    counter is a 16-bit address; when the end of the range is at or past
    the last address of the counter's residue class modulo 16 (for a
    start that is a multiple of 16: when the end is 0xFFF0 or more), the
    counter wraps to the bottom of memory before it can exceed the end,
    and no number of rounds finishes the loop.  A dump of the whole
    memory, from 0x0000 to 0xFFFF, is such a dump. *)
Theorem dump_never_ends : forall m start end_,
  0 <= start <= end_ -> end_ < 65536 ->
  0xFFF0 + start mod 16 <= end_ ->
  forall fuel, dump fuel m start end_ = None.
Proof.
  intros m start end_ Hs He Htop fuel. unfold dump.
  rewrite (to_word_small start), (to_word_small end_) by lia.
  apply (dump_rows_diverges m start end_ fuel Htop); [lia | reflexivity].
Qed.

Lemma dump_never_ends_witness :
  0 <= 0x0000 <= 0xFFFF /\ 0xFFFF < 65536 /\
  0xFFF0 + 0x0000 mod 16 <= 0xFFFF /\
  dump 5000 Memory_new 0x0000 0xFFFF = None.
Proof.
  assert (H1 : 0 <= 0x0000 <= 0xFFFF) by lia.
  assert (H2 : 0xFFFF < 65536) by lia.
  assert (H3 : 0xFFF0 + 0x0000 mod 16 <= 0xFFFF) by (cbn; lia).
  split; [exact H1|]. split; [exact H2|]. split; [exact H3|].
  exact (dump_never_ends Memory_new 0x0000 0xFFFF H1 H2 H3 5000%nat).
Defined.

(** X24: a dump that stays below the last row ends and shows the range.
    When the range is empty (end before start) or its end lies below the
    last address of the start's residue class modulo 16, the loop ends
    after one round per row, more rounds giving the same rows; the rows
    start at start, start + 16, ... and there are (end - start) / 16 + 1
    of them (none for an empty range); each row shows the cells from its
    address up to 15 further or up to the end of the range, whichever
    comes first, and its text column shows the printable bytes (32 to
    126) as they are and a dot for the others. *)
Theorem dump_shows_range : forall m start end_,
  0 <= start < 65536 -> 0 <= end_ < 65536 ->
  end_ < start \/ end_ < 0xFFF0 + start mod 16 ->
  (forall fuel, (dump_row_count start end_ < fuel)%nat ->
     dump fuel m start end_ =
       Some (rows_from m end_ start (dump_row_count start end_))) /\
  (forall a,
     row_address (dump_row m a end_) = a /\
     row_hex (dump_row m a end_) =
       map (data m)
           (addresses_from a (Z.to_nat (Z.min 16 (end_ - a + 1)))) /\
     row_ascii (dump_row m a end_) =
       map (fun b => if (32 <=? b) && (b <? 127) then b else 46)
           (row_hex (dump_row m a end_))).
Proof.
  intros m start end_ Hs He Hfit.
  destruct (dump_row_count_fits start end_ Hs He Hfit) as (Htop & Hlast & Hrows).
  split.
  - intros fuel Hfuel. unfold dump.
    rewrite (to_word_small start Hs), (to_word_small end_ He).
    apply dump_rows_finishes; first [assumption | lia].
  - intros a. unfold dump_row. cbn [row_address row_hex row_ascii].
    split; [reflexivity|]. split.
    + rewrite row_cells_spec. f_equal. f_equal; lia.
    + apply map_ext. intros b. unfold ascii_cell.
      rewrite Z.geb_leb. reflexivity.
Qed.

Lemma dump_shows_range_witness :
  0 <= 0x0000 < 65536 /\ 0 <= 0x00FF < 65536 /\
  (0x00FF < 0x0000 \/ 0x00FF < 0xFFF0 + 0x0000 mod 16) /\
  dump 17 Memory_new 0x0000 0x00FF =
    Some (rows_from Memory_new 0x00FF 0x0000 16).
Proof.
  assert (H1 : 0 <= 0x0000 < 65536) by lia.
  assert (H2 : 0 <= 0x00FF < 65536) by lia.
  assert (H3 : 0x00FF < 0x0000 \/ 0x00FF < 0xFFF0 + 0x0000 mod 16)
    by (right; cbn; lia).
  split; [exact H1|]. split; [exact H2|]. split; [exact H3|].
  destruct (dump_shows_range Memory_new 0x0000 0x00FF H1 H2 H3) as [Hrows _].
  apply (Hrows 17%nat). cbn. lia.
Defined.

(** X25: [dump_range] and the end of memory.  For a length from 1 to
    65536, a range whose last byte start + length - 1 lies below the last
    row of memory is dumped as the range from start to that byte; a range
    that reaches the last row, or would pass the end of memory (the end is
    then cut to 0xFFFF), starts a dump that never ends.  A length of 0
    dumps nothing. *)
Theorem dump_range_behaviour : forall m start length,
  0 <= start < 65536 -> 1 <= length <= 65536 ->
  (start + length - 1 < 0xFFF0 + start mod 16 ->
   forall fuel,
     dump_range fuel m start length = dump fuel m start (start + length - 1) /\
     ((dump_row_count start (start + length - 1) < fuel)%nat ->
      dump_range fuel m start length =
        Some (rows_from m (start + length - 1) start
                (dump_row_count start (start + length - 1))))) /\
  (0xFFF0 + start mod 16 <= start + length - 1 ->
   forall fuel, dump_range fuel m start length = None) /\
  (forall fuel, dump_range fuel m start 0 = Some []).
Proof.
  intros m start length Hs Hl. split_all.
  - intros Hbelow fuel.
    assert (Hlast : 0 <= start + length - 1 < 65536)
      by (Z.to_euclidean_division_equations; lia).
    assert (Heq : dump_range fuel m start length =
                  dump fuel m start (start + length - 1)).
    { unfold dump_range. rewrite (to_word_small start Hs).
      destruct (Z.eqb_spec length 0); [lia|].
      rewrite (to_word_small _ Hlast).
      destruct (Z.ltb_spec (start + length - 1) start); [lia | reflexivity]. }
    split; [exact Heq|]. intros Hfuel. rewrite Heq. unfold dump.
    rewrite (to_word_small start Hs), (to_word_small _ Hlast).
    destruct (dump_row_count_fits start (start + length - 1) Hs Hlast
                (or_intror Hbelow)) as (Htop & Hend & Hrows).
    apply dump_rows_finishes; first [assumption | lia].
  - intros Hreach fuel. unfold dump_range. rewrite (to_word_small start Hs).
    destruct (Z.eqb_spec length 0); [lia|].
    assert (Hend : exists end_,
      (if to_word (start + length - 1) <? start then 0xFFFF
       else to_word (start + length - 1)) = end_ /\
      start <= end_ < 65536 /\ 0xFFF0 + start mod 16 <= end_).
    { eexists. split; [reflexivity|].
      unfold to_word.
      destruct (Z.ltb_spec ((start + length - 1) mod 65536) start);
        Z.to_euclidean_division_equations; lia. }
    destruct Hend as (end_ & -> & Hrange & Htop).
    unfold dump. rewrite (to_word_small start Hs), (to_word_small end_) by lia.
    apply (dump_rows_diverges m start end_ fuel Htop); [lia | reflexivity].
  - intros fuel. unfold dump_range. reflexivity.
Qed.

Lemma dump_range_behaviour_witness :
  0 <= 0xFF00 < 65536 /\ 1 <= 0x0200 <= 65536 /\
  0xFFF0 + 0xFF00 mod 16 <= 0xFF00 + 0x0200 - 1 /\
  dump_range 5000 Memory_new 0xFF00 0x0200 = None.
Proof.
  assert (H1 : 0 <= 0xFF00 < 65536) by lia.
  assert (H2 : 1 <= 0x0200 <= 65536) by lia.
  assert (H3 : 0xFFF0 + 0xFF00 mod 16 <= 0xFF00 + 0x0200 - 1) by (cbn; lia).
  split; [exact H1|]. split; [exact H2|]. split; [exact H3|].
  destruct (dump_range_behaviour Memory_new 0xFF00 0x0200 H1 H2)
    as (_ & Hnever & _).
  exact (Hnever H3 5000%nat).
Defined.

(** ** Comparing and branching *)

Section CompareAndBranch.

Variable code : Opcode -> Z.
Hypothesis code_ok : opcode_table_ok code.

(** X26: CMP prepares the conditional jumps.  A CMP of two registers that
    hold words (its rt field naming a register, below 8) changes only the
    flags, the program counter and the instruction counter: the next
    state has the same registers, stack pointer, debug mode and memory,
    is still running, is 2 on in the program counter and has counted one
    instruction.  Its flag word is below 16 and is such that the
    condition of JZ holds exactly when the two registers are equal, that
    of JNZ when they differ, that of JC when the first is below the
    second as unsigned numbers, that of JNC when it is not, and that of
    JN when the 16-bit difference has its top bit set; V is set exactly
    when the signed difference leaves the 16-bit signed range. *)
Theorem cmp_decides_branches : forall c m,
  halted c = false ->
  opcode_at m (pc c) = code OP_CMP ->
  GET_RT (read_word m (pc c)) < 8 ->
  let a := registers c (GET_RS (read_word m (pc c))) in
  let b := registers c (GET_RT (read_word m (pc c))) in
  0 <= a < 65536 -> 0 <= b < 65536 ->
  exists f,
    step code c m =
      Some (mkCPU (registers c) (to_word (pc c + 2)) (sp c) f false
                  (debug_mode c) (instruction_count c + 1), m) /\
    0 <= f < 16 /\
    jump_predicate OP_JZ f = (a =? b) /\
    jump_predicate OP_JNZ f = negb (a =? b) /\
    jump_predicate OP_JC f = (a <? b) /\
    jump_predicate OP_JNC f = (b <=? a) /\
    jump_predicate OP_JN f = (32768 <=? to_word (a - b)) /\
    flag_set f FLAG_OVERFLOW =
      negb ((-32768 <=? to_int16 a - to_int16 b) &&
            (to_int16 a - to_int16 b <=? 32767)).
Proof.
  intros c m Hrun Hop Hrt a b Ha Hb.
  pose proof (field4_range (read_word m (pc c))) as Hrt4.
  fold (GET_RT (read_word m (pc c))) in Hrt4.
  destruct (sub_flags_value a b (flags c) Ha Hb)
    as (Hr & Hc & Hz & Hn & Hv & Hcmp).
  exists (snd (ALU.sub a b (flags c))). split.
  - unfold step, fetch_decode_execute, execute_instruction.
    rewrite Hrun. cbv zeta.
    rewrite (dispatch_fetched code code_ok _ _ _ Hop).
    rewrite (to_word_small _ (read_word_range m (pc c))).
    plain_fields (read_word m (pc c)).
    rewrite (reg_read_in_range _ (GET_RT (read_word m (pc c)))) by lia.
    cbn [bind fst snd]. fold a b. rewrite Hcmp. cbn [snd].
    cpu_fields. rewrite Hrun. reflexivity.
  - split; [exact (alu_flags_small ALU_sub a b (flags c))|].
    cbn [jump_predicate].
    destruct (flag_test_is_bit (snd (ALU.sub a b (flags c))))
      as (HZ & HC & HN).
    unfold flag_set in Hc, Hz, Hn. rewrite <- HZ, <- HC, <- HN, Hc, Hz, Hn.
    rewrite Hr. fold (to_word (a - b)).
    split_all; try reflexivity.
    + destruct (Z.ltb_spec a b); destruct (Z.leb_spec b a);
        first [reflexivity | lia].
    + exact Hv.
Qed.

End CompareAndBranch.

(** [CMP R1, R2] with R1 = 3 and R2 = 5: the registers differ and the first
    is the smaller, so after the step JZ would not branch, JC and JN
    would; the flag word is C and N, and nothing but the flags, the
    program counter and the instruction counter has changed. *)
Lemma cmp_decides_branches_witness :
  opcode_table_ok sequential_codes /\
  halted cmp_cpu = false /\
  opcode_at cmp_mem (pc cmp_cpu) = sequential_codes OP_CMP /\
  GET_RT (read_word cmp_mem (pc cmp_cpu)) < 8 /\
  registers cmp_cpu (GET_RS (read_word cmp_mem (pc cmp_cpu))) = 3 /\
  registers cmp_cpu (GET_RT (read_word cmp_mem (pc cmp_cpu))) = 5 /\
  exists f,
    step sequential_codes cmp_cpu cmp_mem =
      Some (mkCPU (registers cmp_cpu) 0x0002 0xFFFF f false false 1,
            cmp_mem) /\
    f = Z.lor FLAG_CARRY FLAG_NEGATIVE /\
    jump_predicate OP_JZ f = false /\
    jump_predicate OP_JNZ f = true /\
    jump_predicate OP_JC f = true /\
    jump_predicate OP_JNC f = false /\
    jump_predicate OP_JN f = true.
Proof.
  split; [exact sequential_codes_ok|]. split; [reflexivity|].
  split; [reflexivity|]. split; [reflexivity|].
  split; [reflexivity|]. split; [reflexivity|].
  destruct (cmp_decides_branches sequential_codes sequential_codes_ok
              cmp_cpu cmp_mem eq_refl eq_refl eq_refl)
    as (f & Hstep & _ & Hjz & Hjnz & Hjc & Hjnc & Hjn & _);
    try (cbn; lia).
  exists f. split; [exact Hstep|].
  split.
  - assert (E : step sequential_codes cmp_cpu cmp_mem =
              Some (mkCPU (registers cmp_cpu) 0x0002 0xFFFF
                          (Z.lor FLAG_CARRY FLAG_NEGATIVE) false false 1,
                    cmp_mem)) by reflexivity.
    rewrite E in Hstep. injection Hstep as Hf. symmetry. exact Hf.
  - split; [exact Hjz|]. split; [exact Hjnz|]. split; [exact Hjc|].
    split; [exact Hjnc | exact Hjn].
Defined.

(** ** The reference program in C *)

Lemma Zfact_bound (k : nat) : (k <= 12)%nat -> 1 <= Zfact k <= 479001600.
Proof.
  intros Hk.
  do 13 (destruct k as [|k]; [cbn; lia|]). lia.
Qed.

Lemma factorial_value (k : nat) :
  (1 <= k <= 12)%nat ->
  forall fuel, (k <= fuel)%nat ->
  factorial fuel (Z.of_nat k) = returns (Zfact k).
Proof.
  induction k as [|k IH]; intros Hk fuel Hfuel; [lia|].
  destruct fuel as [|fuel]; [lia|]. cbn [factorial].
  destruct (Nat.eq_dec k 0) as [->|Hnz].
  - reflexivity.
  - destruct (Z.leb_spec (Z.of_nat (S k)) 1); [lia|].
    replace (Z.of_nat (S k) - 1) with (Z.of_nat k) by lia.
    rewrite (IH ltac:(lia) fuel ltac:(lia)). cbv zeta.
    pose proof (Zfact_bound (S k) ltac:(lia)) as Hbound.
    cbn [Zfact] in Hbound. unfold INT_MIN, INT_MAX.
    destruct (Z.leb_spec (-2147483648) (Z.of_nat (S k) * Zfact k)); [|lia].
    destruct (Z.leb_spec (Z.of_nat (S k) * Zfact k) 2147483647); [|lia].
    reflexivity.
Qed.

Lemma factorial_short_of_fuel (fuel : nat) :
  forall n, 1 <= n -> Z.of_nat fuel < n -> factorial fuel n = out_of_fuel.
Proof.
  induction fuel as [|fuel IH]; intros n Hn Hshort; cbn [factorial];
    [reflexivity|].
  destruct (Z.leb_spec n 1); [lia|].
  rewrite IH by lia. reflexivity.
Qed.

Lemma factorial_overflows (fuel : nat) :
  forall n, 13 <= n -> n <= Z.of_nat fuel ->
  factorial fuel n = signed_overflow.
Proof.
  induction fuel as [|fuel IH]; intros n Hn Hfuel; [lia|].
  cbn [factorial].
  destruct (Z.leb_spec n 1); [lia|].
  destruct (Z.eq_dec n 13) as [->|Hne].
  - change (13 - 1) with (Z.of_nat 12).
    rewrite (factorial_value 12 ltac:(lia) fuel ltac:(lia)). reflexivity.
  - rewrite IH by lia. reflexivity.
Qed.

(** X27: the C function [factorial] on 32-bit [int]s.  For n from 1 to 12
    a call returns n!; for every n up to 1, negative ones included, it
    returns 1; for every n from 13 on a multiplication leaves the range
    of [int], so the call has no defined value.  Each of these is the
    outcome as soon as the recursion is allowed n nested calls (one for
    n below 1); with fewer the model runs out of fuel and says so, which
    is a different outcome from the overflow. *)
Theorem factorial_meaning : forall n fuel,
  1 <= n <= 12 ->
  (Z.to_nat n <= fuel)%nat ->
  factorial fuel n = returns (Zfact (Z.to_nat n)) /\
  (forall k, k <= 1 -> factorial fuel k = returns 1) /\
  (forall k f, 13 <= k <= INT_MAX -> k <= Z.of_nat f ->
     factorial f k = signed_overflow) /\
  (forall k f, 1 <= k -> Z.of_nat f < k -> factorial f k = out_of_fuel).
Proof.
  intros n fuel Hn Hfuel. split_all.
  - rewrite <- (Z2Nat.id n) at 1 by lia.
    apply factorial_value; lia.
  - intros k Hk. destruct fuel as [|fuel]; [lia|]. cbn [factorial].
    destruct (Z.leb_spec k 1); [reflexivity | lia].
  - intros k f [Hk _] Hf. apply factorial_overflows; assumption.
  - intros k f Hk Hf. apply factorial_short_of_fuel; assumption.
Qed.

(** [factorial(5)] is 120, as the driver of the program prints;
    [factorial(12)] is the last that fits; [factorial(13)] overflows when
    its thirteenth call multiplies 13 by 479001600; and three nested
    calls are too few for [factorial(5)]. *)
Lemma factorial_meaning_witness :
  1 <= 5 <= 12 /\ (Z.to_nat 5 <= 13)%nat /\
  factorial 13 5 = returns 120 /\
  factorial 13 0 = returns 1 /\
  factorial 13 13 = signed_overflow /\
  factorial 3 5 = out_of_fuel.
Proof.
  assert (H1 : 1 <= 5 <= 12) by lia.
  assert (H2 : (Z.to_nat 5 <= 13)%nat) by (cbn; lia).
  split; [exact H1|]. split; [exact H2|].
  destruct (factorial_meaning 5 13 H1 H2)
    as (Hvalue & Hone & Hover & Hfuel).
  split; [exact Hvalue|].
  split; [apply Hone; lia|].
  split; [apply Hover; first [unfold INT_MAX; lia | cbn; lia]|].
  apply Hfuel; cbn; lia.
Defined.
